(** * IMPMAL Shared Fate: the Fate / Ruin resource manager and its event bindings

    A shallow embedding of [scripts/fate-point-manager.mjs], [scripts/utils.mjs],
    [scripts/settings.mjs], the actor hooks of [scripts/module.mjs] and the badge
    styling of [scripts/ui-handler.mjs].

    JavaScript numbers that hold point counts are integers of [Z], with
    exact sums and differences, as the numbers of the source have them up
    to [Number.MAX_SAFE_INTEGER]; the host
    (Foundry VTT) is a record of oracles that decide whether a write is accepted;
    asynchronous functions are computations over the session's [World] that
    either complete with a value or throw. *)

From Stdlib Require Import ZArith String List Bool Lia DecimalString.
From stdpp Require Import base option list strings.

Local Open Scope string_scope.
Local Open Scope Z_scope.

(** ** Host documents *)

(** A reference to an actor document: its position in [game.actors]. *)
Abbreviation ActorRef := nat (only parsing).

(** [actor.system.fate]: both fields may be missing ([?? 0] in the source). *)
Record Fate := mkFate {
  fate_value : option Z;
  fate_max : option Z
}.

Record Actor := mkActor {
  actor_id : string;
  actor_name : string;
  actor_type : string;
  hasPlayerOwner : bool;
  (** ids of the users for which [testUserPermission(user, "OWNER")] holds *)
  actor_owners : list string;
  (** [actor.system?.fate] *)
  system_fate : option Fate
}.

Record User := mkUser {
  user_id : string;
  user_name : string;
  isGM : bool;
  (** [user.character]: the assigned actor, resolved in [game.actors] *)
  character : option ActorRef
}.

(** The result of [getFatePoints] / [getRuinPoints]. *)
Record Points := mkPoints {
  current : Z;
  max : Z
}.

(** ** constants.mjs and settings.mjs *)

Definition MODULE_ID := "impmal-shared-fate".
Definition LOCALIZE_KEY := "IMPMAL_SHARED_FATE".

Module LOG_LEVELS.

Definition NONE := 0.
Definition ERROR := 1.
Definition WARN := 2.
Definition INFO := 3.
Definition DEBUG := 4.

End LOG_LEVELS.

(** The six registered settings; the two numbers are read with [??]. *)
Record Settings := mkSettings {
  gmRuin : option Z;
  gmRuinMax : option Z;
  showMaxFate : bool;
  allowPlayerUse : bool;
  showChatMessages : bool;
  logLevel : string
}.

(** The defaults given to [game.settings.register]. *)
Definition defaultSettings : Settings :=
  {| gmRuin := Some 0; gmRuinMax := Some 5; showMaxFate := true;
     allowPlayerUse := true; showChatMessages := true; logLevel := "warn" |}.

(** ** What a session shows to its user *)

Inductive NotifyType := NInfo | NWarn | NError.

Record Notification := mkNotification {
  note_key : string;
  note_type : NotifyType
}.

Record ChatMessage := mkChat {
  chat_class : string;
  chat_localeKey : string;
  chat_speaker : string;
  chat_amount : Z;
  chat_oldValue : option Z;
  chat_newValue : Z;
  chat_max : Z
}.

(** ** The world as one session sees it *)

Record World := mkWorld {
  (** [game.user], the acting session *)
  game_user : User;
  game_actors : list Actor;
  game_settings : Settings;
  (** [ui.players?.rendered] *)
  players_rendered : bool;
  notifications : list Notification;
  (** the messages this session created with [ChatMessage.create] *)
  chatLog : list ChatMessage;
  console : list (string * string);
  (** how many times [ui.players.render()] ran *)
  renders : nat
}.

Definition with_actors (l : list Actor) (w : World) : World :=
  mkWorld (game_user w) l (game_settings w) (players_rendered w)
          (notifications w) (chatLog w) (console w) (renders w).

Definition with_settings (s : Settings) (w : World) : World :=
  mkWorld (game_user w) (game_actors w) s (players_rendered w)
          (notifications w) (chatLog w) (console w) (renders w).

Definition with_notifications (l : list Notification) (w : World) : World :=
  mkWorld (game_user w) (game_actors w) (game_settings w) (players_rendered w)
          l (chatLog w) (console w) (renders w).

Definition with_chatLog (l : list ChatMessage) (w : World) : World :=
  mkWorld (game_user w) (game_actors w) (game_settings w) (players_rendered w)
          (notifications w) l (console w) (renders w).

Definition with_console (l : list (string * string)) (w : World) : World :=
  mkWorld (game_user w) (game_actors w) (game_settings w) (players_rendered w)
          (notifications w) (chatLog w) l (renders w).

Definition with_renders (n : nat) (w : World) : World :=
  mkWorld (game_user w) (game_actors w) (game_settings w) (players_rendered w)
          (notifications w) (chatLog w) (console w) n.

(** The host decides whether a write goes through; a refused write rejects
    the promise the module awaits. *)
Record Host := mkHost {
  acceptsActorUpdate : ActorRef -> Z -> bool;
  acceptsSettingWrite : Z -> bool;
  acceptsChatMessage : ChatMessage -> bool
}.

(** A host that accepts every write. *)
Definition permissiveHost : Host :=
  mkHost (fun _ _ => true) (fun _ => true) (fun _ => true).

(** ** Asynchronous computations: state passing with exceptions *)

Inductive Completion (A : Type) : Type :=
| Returned (a : A)
| Thrown.
Arguments Returned {A} a.
Arguments Thrown {A}.

Definition Async (A : Type) : Type := World -> Completion A * World.

#[global] Instance Async_ret : MRet Async :=
  fun A a w => (Returned a, w).

#[global] Instance Async_bind : MBind Async :=
  fun A B f m w =>
    match m w with
    | (Returned a, w') => f a w'
    | (Thrown, w') => (Thrown, w')
    end.

(** Read something off the session without changing it. *)
Definition gets {A} (f : World -> A) : Async A :=
  fun w => (Returned (f w), w).

Definition modify (f : World -> World) : Async unit :=
  fun w => (Returned tt, f w).

Definition throw {A} : Async A :=
  fun w => (Thrown, w).

(** [try { body } catch (error) { handler }] *)
Definition tryCatch {A} (body handler : Async A) : Async A :=
  fun w =>
    match body w with
    | (Returned a, w') => (Returned a, w')
    | (Thrown, w') => handler w'
    end.

(** ** utils.mjs *)

Definition LOG_LEVEL_MAP (level : string) : option Z :=
  if String.eqb level "none" then Some LOG_LEVELS.NONE
  else if String.eqb level "error" then Some LOG_LEVELS.ERROR
  else if String.eqb level "warn" then Some LOG_LEVELS.WARN
  else if String.eqb level "info" then Some LOG_LEVELS.INFO
  else if String.eqb level "debug" then Some LOG_LEVELS.DEBUG
  else None.

(** [log(level, message, data)]: the console gets the message when the
    configured level admits it (the data payload is not kept; the settings
    are registered, so reading the level does not throw). *)
Definition log (level message : string) : Async unit :=
  fun w =>
    let configLevel :=
      default LOG_LEVELS.WARN (LOG_LEVEL_MAP (logLevel (game_settings w))) in
    let messageLevel := default LOG_LEVELS.INFO (LOG_LEVEL_MAP level) in
    if messageLevel >? configLevel then (Returned tt, w)
    else (Returned tt, with_console (console w ++ [(level, message)]) w).

(** [notify(messageKey, type)] *)
Definition notify (messageKey : string) (type : NotifyType) : Async unit :=
  modify (fun w =>
    with_notifications (notifications w ++ [mkNotification messageKey type]) w).

(** ** settings.mjs: typed access to the host's registry *)

Definition getSetting {A} (key : Settings -> A) : Async A :=
  gets (fun w => key (game_settings w)).

(** [setSetting(SETTINGS_KEYS.GM_RUIN, value)], the only key the module
    writes: the write itself.  The [onChange] registered for the key,
    a [UIHandler.refresh()], is run by the host and is not part of this
    step. *)
Definition setSetting_GM_RUIN (h : Host) (value : Z) : Async unit :=
  fun w =>
    if acceptsSettingWrite h value then
      let s := game_settings w in
      (Returned tt,
       with_settings (mkSettings (Some value) (gmRuinMax s) (showMaxFate s)
                                 (allowPlayerUse s) (showChatMessages s)
                                 (logLevel s)) w)
    else (Thrown, w).

(** [ChatMessage.create(...)] *)
Definition ChatMessage_create (h : Host) (m : ChatMessage) : Async unit :=
  fun w =>
    if acceptsChatMessage h m then
      (Returned tt, with_chatLog (chatLog w ++ [m]) w)
    else (Thrown, w).

(** What [{"system.fate.value": v}] does to an actor document. *)
Definition set_fate_value (v : Z) (a : Actor) : Actor :=
  mkActor (actor_id a) (actor_name a) (actor_type a) (hasPlayerOwner a)
          (actor_owners a)
          (Some (mkFate (Some v) (system_fate a ≫= fate_max))).

(** [character.update({"system.fate.value": newValue})]: the write itself.
    The handlers the host calls around it, [preUpdateActor] and
    [updateActor] of [Hooks] below with their chat message and refresh,
    are not part of this step. *)
Definition character_update (h : Host) (r : ActorRef) (newValue : Z) : Async unit :=
  fun w =>
    if acceptsActorUpdate h r newValue then
      (Returned tt, with_actors (alter (set_fate_value newValue) r (game_actors w)) w)
    else (Thrown, w).

(** ** fate-point-manager.mjs *)

Module FatePointManager.

(** [Array.prototype.find], returning the reference of the first match. *)
Fixpoint findRef {A} (p : A -> bool) (l : list A) : option nat :=
  match l with
  | [] => None
  | x :: l' => if p x then Some 0%nat else S <$> findRef p l'
  end.

Definition is_character (a : Actor) : bool :=
  String.eqb (actor_type a) "character".

(** [a.testUserPermission(user, "OWNER")] *)
Definition testUserPermission (a : Actor) (user : User) : bool :=
  existsb (String.eqb (user_id user)) (actor_owners a).

(** [getPlayerCharacter(user)]; [None] as argument is a null user. *)
Definition getPlayerCharacter (w : World) (user : option User) : option ActorRef :=
  match user with
  | None => None
  | Some u =>
    (* GMs don't have linked characters for this module *)
    if isGM u then None
    else
      (* First check if user has a directly assigned character *)
      match character u ≫= (fun r => (game_actors w !! r) ≫=
                            (fun a => if is_character a then Some r else None)) with
      | Some r => Some r
      | None =>
        (* Fallback: find a character this user owns *)
        findRef (fun a => is_character a && hasPlayerOwner a && testUserPermission a u)
                (game_actors w)
      end
  end.

(** [getFatePoints(user)] *)
Definition getFatePoints (w : World) (user : User) : option Points :=
  (* GMs use Ruin, not Fate *)
  if isGM user then None
  else
    match getPlayerCharacter w (Some user) with
    | None => None
    | Some r =>
      match (game_actors w !! r) ≫= system_fate with
      | None => None
      | Some fate =>
        Some {| current := default 0 (fate_value fate);
                max := default 0 (fate_max fate) |}
      end
    end.

(** [getRuinPoints()] *)
Definition getRuinPoints (w : World) : Points :=
  {| current := default 0 (gmRuin (game_settings w));
     max := default 5 (gmRuinMax (game_settings w)) |}.

(** The [options] argument of the Ruin operations. *)
Record Options := mkOptions {
  chatMessage : option bool
}.

Definition noOptions : Options := mkOptions None.

(** [_sendRuinChatMessage(action, amount, newValue, maxValue)] *)
Definition _sendRuinChatMessage (h : Host) (action : string)
    (amount newValue maxValue : Z) : Async unit :=
  let localeKey :=
    if String.eqb action "used" then Some "Chat.UsedRuin"
    else if String.eqb action "added" then Some "Chat.AddedRuin"
    else if String.eqb action "removed" then Some "Chat.RemovedRuin"
    else None in
  match localeKey with
  | None => mret tt
  | Some k =>
    ChatMessage_create h
      (mkChat "impmal-shared-fate-message ruin-message" k "GM"
              amount None newValue maxValue)
  end.

(** [sendFateChangeMessage(actor, oldValue, newValue, maxValue, difference)] *)
Definition sendFateChangeMessage (h : Host) (actor : Actor)
    (oldValue newValue maxValue difference : Z) : Async unit :=
  let amount := Z.abs difference in
  if difference >? 0 then
    ChatMessage_create h
      (mkChat "impmal-shared-fate-message fate-message" "Chat.FateIncreased"
              (actor_name actor) amount (Some oldValue) newValue maxValue)
  else if difference <? 0 then
    ChatMessage_create h
      (mkChat "impmal-shared-fate-message fate-message" "Chat.FateDecreased"
              (actor_name actor) amount (Some oldValue) newValue maxValue)
  else mret tt (* No change *).

(** [useRuin(amount, options)] *)
Definition useRuin (h : Host) (amount : Z) (options : Options) : Async bool :=
  showChat ← getSetting showChatMessages;
  let chatMessage := default showChat (chatMessage options) in
  gameUser ← gets game_user;
  if negb (isGM gameUser) then
    notify "GMOnly" NWarn;; mret false
  else
    ruinData ← gets getRuinPoints;
    if current ruinData <? amount then
      notify "InsufficientRuin" NWarn;; mret false
    else
      let newValue := Z.max 0 (current ruinData - amount) in
      tryCatch
        (setSetting_GM_RUIN h newValue;;
         log "info" "Ruin point used";;
         (if chatMessage
          then _sendRuinChatMessage h "used" amount newValue (max ruinData)
          else mret tt);;
         mret true)
        (log "error" "Failed to use Ruin point";;
         notify "UpdateFailed" NError;;
         mret false).

(** [addRuin(amount, options)] *)
Definition addRuin (h : Host) (amount : Z) (options : Options) : Async bool :=
  showChat ← getSetting showChatMessages;
  let chatMessage := default showChat (chatMessage options) in
  gameUser ← gets game_user;
  if negb (isGM gameUser) then
    notify "GMOnly" NWarn;; mret false
  else
    ruinData ← gets getRuinPoints;
    let newValue := Z.min (max ruinData) (current ruinData + amount) in
    tryCatch
      (setSetting_GM_RUIN h newValue;;
       log "info" "Ruin point added";;
       (if chatMessage
        then _sendRuinChatMessage h "added" amount newValue (max ruinData)
        else mret tt);;
       mret true)
      (log "error" "Failed to add Ruin point";;
       notify "UpdateFailed" NError;;
       mret false).

(** [removeRuin(amount, options)] *)
Definition removeRuin (h : Host) (amount : Z) (options : Options) : Async bool :=
  showChat ← getSetting showChatMessages;
  let chatMessage := default showChat (chatMessage options) in
  gameUser ← gets game_user;
  if negb (isGM gameUser) then
    notify "GMOnly" NWarn;; mret false
  else
    ruinData ← gets getRuinPoints;
    let newValue := Z.max 0 (current ruinData - amount) in
    tryCatch
      (setSetting_GM_RUIN h newValue;;
       log "info" "Ruin point removed";;
       (if chatMessage
        then _sendRuinChatMessage h "removed" amount newValue (max ruinData)
        else mret tt);;
       mret true)
      (log "error" "Failed to remove Ruin point";;
       notify "UpdateFailed" NError;;
       mret false).

(** [_canUseFate(user)] *)
Definition _canUseFate (w : World) (user : User) : bool :=
  (* GMs use Ruin, not Fate from characters *)
  if isGM user then false
  (* Check if players are allowed to use fate from UI *)
  else if negb (allowPlayerUse (game_settings w)) then
    (* Only GMs can use player fate if setting is disabled *)
    isGM (game_user w)
  (* Players can only use their own fate, GMs can use anyone's *)
  else String.eqb (user_id user) (user_id (game_user w)) || isGM (game_user w).

(** [useFate(user, amount)] *)
Definition useFate (h : Host) (user : User) (amount : Z) : Async bool :=
  (* Validate user can use fate *)
  allowed ← gets (fun w => _canUseFate w user);
  if negb allowed then
    notify "CannotUseFate" NWarn;; mret false
  else
    character ← gets (fun w => getPlayerCharacter w (Some user));
    match character with
    | None => notify "NoCharacter" NWarn;; mret false
    | Some character =>
      fatePoints ← gets (fun w => getFatePoints w user);
      match fatePoints with
      | None => notify "InsufficientFate" NWarn;; mret false
      | Some fatePoints =>
        if current fatePoints <? amount then
          notify "InsufficientFate" NWarn;; mret false
        else
          (* Calculate new value *)
          let newValue := Z.max 0 (current fatePoints - amount) in
          tryCatch
            (character_update h character newValue;;
             log "info" "Fate point used";;
             mret true)
            (log "error" "Failed to use fate point";;
             notify "UpdateFailed" NError;;
             mret false)
      end
    end.

(** [addFate(user, amount)] *)
Definition addFate (h : Host) (user : User) (amount : Z) : Async bool :=
  (* Only GMs can add fate *)
  gameUser ← gets game_user;
  if negb (isGM gameUser) then
    notify "GMOnly" NWarn;; mret false
  else
    character ← gets (fun w => getPlayerCharacter w (Some user));
    match character with
    | None => notify "NoCharacter" NWarn;; mret false
    | Some character =>
      fatePoints ← gets (fun w => getFatePoints w user);
      match fatePoints with
      | None => notify "NoFateData" NWarn;; mret false
      | Some fatePoints =>
        (* Calculate new value, capped at max *)
        let newValue := Z.min (max fatePoints) (current fatePoints + amount) in
        tryCatch
          (character_update h character newValue;;
           log "info" "Fate point added";;
           mret true)
          (log "error" "Failed to add fate point";;
           notify "UpdateFailed" NError;;
           mret false)
      end
    end.

(** [removeFate(user, amount)] *)
Definition removeFate (h : Host) (user : User) (amount : Z) : Async bool :=
  (* Only GMs can remove fate *)
  gameUser ← gets game_user;
  if negb (isGM gameUser) then
    notify "GMOnly" NWarn;; mret false
  else
    character ← gets (fun w => getPlayerCharacter w (Some user));
    match character with
    | None => notify "NoCharacter" NWarn;; mret false
    | Some character =>
      fatePoints ← gets (fun w => getFatePoints w user);
      match fatePoints with
      | None => notify "NoFateData" NWarn;; mret false
      | Some fatePoints =>
        (* Calculate new value, minimum 0 *)
        let newValue := Z.max 0 (current fatePoints - amount) in
        tryCatch
          (character_update h character newValue;;
           log "info" "Fate point removed";;
           mret true)
          (log "error" "Failed to remove fate point";;
           notify "UpdateFailed" NError;;
           mret false)
      end
    end.

(** The Fate operations on a [user] argument that may be [null] or
    [undefined] ([None]).  [useFate] starts with [_canUseFate(user)],
    which reads [user.isGM] outside any try block, so a null user makes
    it throw.  [addFate] and [removeFate] check [game.user.isGM] first
    and then [getPlayerCharacter(user)], whose own null check answers
    [null]; had it answered a character, [getFatePoints(user)] would
    read [user.isGM] and throw. *)
Definition useFate_nullable (h : Host) (user : option User) (amount : Z)
  : Async bool :=
  match user with
  | Some u => useFate h u amount
  | None => throw
  end.

Definition addFate_nullable (h : Host) (user : option User) (amount : Z)
  : Async bool :=
  match user with
  | Some u => addFate h u amount
  | None =>
    gameUser ← gets game_user;
    if negb (isGM gameUser) then
      notify "GMOnly" NWarn;; mret false
    else
      character ← gets (fun w => getPlayerCharacter w None);
      match character with
      | None => notify "NoCharacter" NWarn;; mret false
      | Some _ => throw
      end
  end.

Definition removeFate_nullable (h : Host) (user : option User) (amount : Z)
  : Async bool :=
  match user with
  | Some u => removeFate h u amount
  | None =>
    gameUser ← gets game_user;
    if negb (isGM gameUser) then
      notify "GMOnly" NWarn;; mret false
    else
      character ← gets (fun w => getPlayerCharacter w None);
      match character with
      | None => notify "NoCharacter" NWarn;; mret false
      | Some _ => throw
      end
  end.

End FatePointManager.

(** ** ui-handler.mjs: refresh and the styling of the roster badges *)

Module UIHandler.

(** [refresh()]: re-render the player list when it is on screen. *)
Definition refresh : Async unit :=
  modify (fun w =>
    if players_rendered w then with_renders (S (renders w)) w else w).

(** [_canInteractWithFate(targetUser)] *)
Definition _canInteractWithFate (w : World) (targetUser : User) : bool :=
  (* GMs can always interact with player fate *)
  if isGM (game_user w) then true
  (* Check if players are allowed to use fate from UI *)
  else if negb (allowPlayerUse (game_settings w)) then false
  (* Players can only use their own fate *)
  else String.eqb (user_id targetUser) (user_id (game_user w)).

(** [user.isSelf] *)
Definition isSelf (w : World) (user : User) : bool :=
  String.eqb (user_id user) (user_id (game_user w)).

(** The [classList] of the container [_addRuinDisplay(li, user)] builds,
    in the order the classes are added. *)
Definition ruinContainerClasses (w : World) (user : User) : list string :=
  let ruinData := FatePointManager.getRuinPoints w in
  (* Only GM can interact with Ruin, and only their own *)
  let canInteract := isGM (game_user w) && isSelf w user in
  let canUse := canInteract && (current ruinData >? 0) in
  ["impmal-fate-container"; "ruin-container"]
  ++ (if canUse then ["interactive"] else [])
  (* Style based on Ruin availability *)
  ++ (if current ruinData =? 0 then ["exhausted"]
      else if current ruinData =? max ruinData then ["full"]
      else []).

(** The [classList] of the container [_addFateDisplay(li, user, fateData)]
    builds, in the order the classes are added. *)
Definition fateContainerClasses (w : World) (user : User) (fateData : Points)
  : list string :=
  (* Determine if this user can interact with fate *)
  let canInteract := _canInteractWithFate w user in
  let canUse := canInteract && (current fateData >? 0) in
  ["impmal-fate-container"; "fate-container"]
  ++ (if canUse then ["interactive"] else [])
  (* Style based on fate availability *)
  ++ (if current fateData =? 0 then ["exhausted"]
      else if current fateData =? max fateData then ["full"]
      else []).

(** [n.toString()] and [`${n}`] of an integer. *)
Definition numberToString (n : Z) : string :=
  NilZero.string_of_int (Z.to_int n).

(** What the roster shows for one user: the container the display
    functions build, with its class list, the text of the value, the
    localisation keys of the tooltip lines, whether the click and context
    menu listeners are attached, and whether the GM's +/- controls are
    appended. *)
Record Badge := mkBadge {
  badge_userId : string;
  badge_classes : list string;
  badge_text : string;
  badge_tooltip : list string;
  badge_listeners : bool;
  badge_controls : bool
}.

(** [_addRuinDisplay(li, user)] *)
Definition _addRuinDisplay (w : World) (user : User) : Badge :=
  let ruinData := FatePointManager.getRuinPoints w in
  let showMax := showMaxFate (game_settings w) in
  (* Only GM can interact with Ruin, and only their own *)
  let canInteract := isGM (game_user w) && isSelf w user in
  let canUse := canInteract && (current ruinData >? 0) in
  mkBadge (user_id user)
    (ruinContainerClasses w user)
    (if showMax
     then numberToString (current ruinData) ++ "/" ++ numberToString (max ruinData)
     else numberToString (current ruinData))
    (["Tooltip.RuinPoints"]
     ++ (if canUse then ["Tooltip.ClickToUseRuin"] else [])
     ++ (if canInteract
         then ["Tooltip.CtrlClickToAddRuin"; "Tooltip.CtrlRightClickToRemoveRuin"]
         else []))%list
    (* Add click handlers for GM *)
    canInteract
    (* Add GM controls if this is the current user and they're GM *)
    (isGM (game_user w) && isSelf w user).

(** [_addFateDisplay(li, user, fateData)] *)
Definition _addFateDisplay (w : World) (user : User) (fateData : Points) : Badge :=
  let showMax := showMaxFate (game_settings w) in
  (* Determine if this user can interact with fate *)
  let canInteract := _canInteractWithFate w user in
  let canUse := canInteract && (current fateData >? 0) in
  mkBadge (user_id user)
    (fateContainerClasses w user fateData)
    (if showMax
     then numberToString (current fateData) ++ "/" ++ numberToString (max fateData)
     else numberToString (current fateData))
    (["Tooltip.FatePoints"]
     ++ (if canUse then ["Tooltip.ClickToUse"] else [])
     ++ (if isGM (game_user w)
         then ["Tooltip.CtrlClickToAdd"; "Tooltip.CtrlRightClickToRemove"]
         else []))%list
    (* Add click handlers *)
    (canUse || isGM (game_user w))
    (* Add GM controls if user is GM *)
    (isGM (game_user w)).

(** One turn of the loop of [onRenderPlayers]: the badge added to the
    list item of [userId], if any; [users] is [game.users]. *)
Definition renderPlayerRow (users : list User) (w : World) (userId : string)
  : option Badge :=
  match find (fun u => String.eqb (user_id u) userId) users with
  | None => None
  | Some user =>
    (* Check if this is a GM user *)
    if isGM user then
      (* GMs get Ruin display *)
      Some (_addRuinDisplay w user)
    else
      (* Players get Fate display *)
      match FatePointManager.getFatePoints w user with
      | Some fateData => Some (_addFateDisplay w user fateData)
      | None => None
      end
  end.

(** [onRenderPlayers(app, html, data)]: [rows] are the [data-user-id] of
    the list items, in document order. *)
Definition onRenderPlayers (users : list User) (rows : list string)
  : Async (list (option Badge)) :=
  log "debug" "Rendering fate/ruin points in player list";;
  w ← gets (fun w => w);
  mret (map (renderPlayerRow users w) rows).

(** The part of a [MouseEvent] the handlers read. *)
Record MouseEvent := mkMouseEvent {
  ctrlKey : bool
}.

(** [_onRuinClick(event)]; [confirmed] is what the dialog of
    [_confirmRuinUse()] resolves to when it is shown. *)
Definition _onRuinClick (h : Host) (confirmed : bool) (event : MouseEvent)
  : Async unit :=
  (* Ctrl+click to add Ruin *)
  if ctrlKey event then
    FatePointManager.addRuin h 1 FatePointManager.noOptions;; mret tt
  else
    (* Regular click to use Ruin *)
    ruinData ← gets FatePointManager.getRuinPoints;
    if current ruinData <=? 0 then
      log "debug" "Cannot use Ruin - none available"
    else
      (* Confirm Ruin use with dialog *)
      if confirmed then
        FatePointManager.useRuin h 1 FatePointManager.noOptions;; mret tt
      else mret tt.

(** [_onRuinRightClick(event)] *)
Definition _onRuinRightClick (h : Host) (event : MouseEvent) : Async unit :=
  gameUser ← gets game_user;
  (* Only GMs can right-click to remove *)
  if negb (isGM gameUser) then mret tt
  (* Ctrl+right-click to remove Ruin *)
  else if ctrlKey event then
    FatePointManager.removeRuin h 1 FatePointManager.noOptions;; mret tt
  else mret tt.

(** [_onFateClick(event, user)]; [confirmed] is what the dialog of
    [_confirmFateUse(character)] resolves to when it is shown. *)
Definition _onFateClick (h : Host) (confirmed : bool) (event : MouseEvent)
    (user : User) : Async unit :=
  gameUser ← gets game_user;
  (* Ctrl+click for GM to add fate *)
  if ctrlKey event && isGM gameUser then
    FatePointManager.addFate h user 1;; mret tt
  else
    (* Regular click to use fate *)
    fateData ← gets (fun w => FatePointManager.getFatePoints w user);
    match fateData with
    | None => log "debug" "Cannot use fate - none available"
    | Some fateData =>
      if current fateData <=? 0 then
        log "debug" "Cannot use fate - none available"
      else
        (* Check if user can use this fate *)
        canInteract ← gets (fun w => _canInteractWithFate w user);
        if negb canInteract then
          log "debug" "Cannot use fate - not authorized"
        else
          (* Confirm fate use with dialog *)
          if confirmed then
            FatePointManager.useFate h user 1;; mret tt
          else mret tt
    end.

(** [_onFateRightClick(event, user)] *)
Definition _onFateRightClick (h : Host) (event : MouseEvent) (user : User)
  : Async unit :=
  gameUser ← gets game_user;
  (* Only GMs can right-click to remove *)
  if negb (isGM gameUser) then mret tt
  (* Ctrl+right-click to remove fate *)
  else if ctrlKey event then
    FatePointManager.removeFate h user 1;; mret tt
  else mret tt.

End UIHandler.

(** ** module.mjs: the actor hooks *)

Module Hooks.

(** The part of an update's [changes] the hooks look at:
    [Some v] when [changes] has the property ["system.fate.value"]. *)
Record Changes := mkChanges {
  change_fate_value : option Z
}.

(** [options._impmalSharedFate] *)
Record Snapshot := mkSnapshot {
  oldFateValue : Z;
  actorId : string
}.

(** The update's options bag, as far as this module uses it. *)
Record UpdateOptions := mkUpdateOptions {
  _impmalSharedFate : option Snapshot
}.

(** [actor.system?.fate?.value ?? 0] *)
Definition fateValueOf (actor : Actor) : Z :=
  default 0 (system_fate actor ≫= fate_value).

(** [actor.system?.fate?.max ?? 0] *)
Definition fateMaxOf (actor : Actor) : Z :=
  default 0 (system_fate actor ≫= fate_max).

(** [Hooks.on("preUpdateActor", ...)]: returns the options bag as the
    handler leaves it. *)
Definition preUpdateActor (actor : Actor) (changes : Changes)
    (options : UpdateOptions) (userId : string) : Async UpdateOptions :=
  (* Only track character actors with fate changes *)
  if negb (String.eqb (actor_type actor) "character") then mret options
  else
    match change_fate_value changes with
    | None => mret options
    | Some _ =>
      (* Store the old fate value in options so we can compare after update *)
      let oldValue := fateValueOf actor in
      let options' :=
        mkUpdateOptions (Some (mkSnapshot oldValue (actor_id actor))) in
      log "debug" "Tracking fate change";;
      mret options'
    end.

(** [Hooks.on("updateActor", ...)] *)
Definition updateActor (h : Host) (actor : Actor) (changes : Changes)
    (options : UpdateOptions) (userId : string) : Async unit :=
  (* Check if we were tracking this actor's fate *)
  match _impmalSharedFate options with
  | None => mret tt
  | Some snapshot =>
    if negb (String.eqb (actorId snapshot) (actor_id actor)) then mret tt
    else
      (* Get the new fate value *)
      let newValue := fateValueOf actor in
      let oldValue := oldFateValue snapshot in
      let maxValue := fateMaxOf actor in
      (* Skip if no actual change *)
      if newValue =? oldValue then mret tt
      else
        log "debug" "Fate changed on actor";;
        gameUser ← gets game_user;
        (* Only the user who made the change should send the chat message *)
        if negb (String.eqb userId (user_id gameUser)) then UIHandler.refresh
        else
          (* Check if chat messages are enabled *)
          showChat ← getSetting showChatMessages;
          if negb showChat then UIHandler.refresh
          else
            (* Determine the type of change and send appropriate message *)
            let difference := newValue - oldValue in
            FatePointManager.sendFateChangeMessage
              h actor oldValue newValue maxValue difference;;
            (* Refresh the UI *)
            UIHandler.refresh
  end.

(** What the host does with the changes of an update. *)
Definition applyChanges (changes : Changes) (actor : Actor) : Actor :=
  match change_fate_value changes with
  | Some v => set_fate_value v actor
  | None => actor
  end.

(** One document update as the session that performs it sees it:
    [preUpdateActor] on the document before the change, then [updateActor]
    on the changed document with the options bag the first handler left. *)
Definition actorUpdateInSession (h : Host) (actor : Actor) (changes : Changes)
    (userId : string) : Async unit :=
  options ← preUpdateActor actor changes (mkUpdateOptions None) userId;
  updateActor h (applyChanges changes actor) changes options userId.

(** The update event as the connected sessions observe it: each runs its
    own [updateActor] handler on the same document, options and user id. *)
Definition broadcastUpdate (h : Host) (actor : Actor) (changes : Changes)
    (options : UpdateOptions) (userId : string) (sessions : list World)
  : list World :=
  map (fun w => snd (updateActor h actor changes options userId w)) sessions.

(** How many chat messages the sessions created, all together. *)
Definition totalChat (sessions : list World) : nat :=
  list_sum (map (fun w => length (chatLog w)) sessions).

End Hooks.

(** ** Example sessions *)

Module Fixtures.

Definition aldric : Actor :=
  mkActor "a-aldric" "Aldric" "character" true ["u-alice"]
          (Some (mkFate (Some 3) (Some 5))).

Definition brina : Actor :=
  mkActor "a-brina" "Brina" "character" true ["u-bob"]
          (Some (mkFate (Some 5) (Some 5))).

(** alice has an assigned character, bob only owns one. *)
Definition alice : User := mkUser "u-alice" "alice" false (Some 0%nat).
Definition bob : User := mkUser "u-bob" "bob" false None.
Definition gm : User := mkUser "u-gm" "gamemaster" true None.

Definition sessionOf (u : User) (s : Settings) : World :=
  mkWorld u [aldric; brina] s true [] [] [] 0.

Definition ruinSettings (cur mx : Z) (allow chat : bool) : Settings :=
  mkSettings (Some cur) (Some mx) true allow chat "warn".

(** Ruin 3/5, player use allowed, chat messages on. *)
Definition gmSession : World := sessionOf gm (ruinSettings 3 5 true true).
Definition aliceSession : World := sessionOf alice (ruinSettings 3 5 true true).
Definition bobSession : World := sessionOf bob (ruinSettings 3 5 true true).

(** The same with "allow player use" switched off. *)
Definition gmSessionOff : World := sessionOf gm (ruinSettings 3 5 false true).
Definition aliceSessionOff : World := sessionOf alice (ruinSettings 3 5 false true).

(** The sessions after some calls. *)
Definition ruinUsed : World :=
  snd (FatePointManager.useRuin permissiveHost 1 FatePointManager.noOptions gmSession).
Definition ruinAdded : World :=
  snd (FatePointManager.addRuin permissiveHost 4 FatePointManager.noOptions gmSession).
Definition fateRemoved : World :=
  snd (FatePointManager.removeFate permissiveHost alice 1 gmSession).
Definition fateAdded : World :=
  snd (FatePointManager.addFate permissiveHost alice 4 gmSession).
Definition ruinBelowZero : World :=
  snd (FatePointManager.addRuin permissiveHost (-3) FatePointManager.noOptions
         (sessionOf gm (ruinSettings 0 5 true true))).
Definition ruinAboveMax : World :=
  snd (FatePointManager.removeRuin permissiveHost (-3) FatePointManager.noOptions
         (sessionOf gm (ruinSettings 5 5 true true))).
Definition ruinStillAboveMax : World :=
  snd (FatePointManager.removeRuin permissiveHost 1 FatePointManager.noOptions
         (sessionOf gm (ruinSettings 7 5 true true))).

(** Aldric after one fate point was spent, and the snapshot taken before. *)
Definition aldricSpent : Actor := set_fate_value 2 aldric.
Definition aldricSnapshot : Hooks.Snapshot := Hooks.mkSnapshot 3 "a-aldric".

(** Three connected sessions, with chat messages on and off. *)
Definition chattySessions : list World := [aliceSession; bobSession; gmSession].
Definition quietSessions : list World :=
  [sessionOf alice (ruinSettings 3 5 true false);
   sessionOf bob (ruinSettings 3 5 true false);
   sessionOf gm (ruinSettings 3 5 true false)].

(** A host that refuses every write, and one that stores values but
    refuses chat messages. *)
Definition refusingHost : Host :=
  mkHost (fun _ _ => false) (fun _ => false) (fun _ => false).
Definition chatRefusingHost : Host :=
  mkHost (fun _ _ => true) (fun _ => true) (fun _ => false).

(** A user without any character, and an actor that is not a character. *)
Definition carol : User := mkUser "u-carol" "carol" false None.
Definition servitor : Actor :=
  mkActor "a-servitor" "Servitor" "npc" false []
          (Some (mkFate (Some 1) (Some 1))).


End Fixtures.

Import FatePointManager Hooks Fixtures.

(** ** Vocabulary of the statements *)

(** The world after a warning [key] has been shown. *)
Definition warned (key : string) (w : World) : World :=
  with_notifications (notifications w ++ [mkNotification key NWarn]) w.

(** The steps that only show or record something keep users, documents
    and settings as they were. *)
Definition sameState (w w' : World) : Prop :=
  game_user w' = game_user w
  /\ game_actors w' = game_actors w
  /\ game_settings w' = game_settings w.

(** What any completed call of a Ruin operation that computed the new
    value [v] can have done. *)
Definition ruinOutcome (v : Z) (w : World) (c : Completion bool) (w' : World) : Prop :=
  exists b : bool,
    c = Returned b
    /\ game_actors w' = game_actors w
    /\ max (getRuinPoints w') = max (getRuinPoints w)
    /\ (b = true -> current (getRuinPoints w') = v)
    /\ (current (getRuinPoints w') = v
        \/ current (getRuinPoints w') = current (getRuinPoints w)).

(** What any completed call of a Fate operation on [user] that computed
    the new value [v] can have done: it returned [true] and the fate read
    back is [v] of the old maximum, or it returned [false] and the fate
    read back is what it was. *)
Definition fateOutcome (v : Z) (user : User) (w : World)
    (c : Completion bool) (w' : World) : Prop :=
  game_settings w' = game_settings w
  /\ ((c = Returned true
       /\ exists fp, getFatePoints w user = Some fp
                     /\ getFatePoints w' user = Some (mkPoints v (max fp)))
      \/ (c = Returned false
          /\ getFatePoints w' user = getFatePoints w user
          /\ game_actors w' = game_actors w)).

(** The user ids of the connected sessions. *)
Definition sessionIds (sessions : list World) : list string :=
  map (fun w => user_id (game_user w)) sessions.

(** A computation keeps [f] when, however it ends, [f] of the world is
    what it was. *)
Definition keeps {A B} (f : World -> B) (m : Async A) : Prop :=
  forall w c w', m w = (c, w') -> f w' = f w.

(** A computation that never throws: it always completes with a value. *)
Definition neverThrows {A} (m : Async A) : Prop :=
  forall w, exists a w', m w = (Returned a, w').

(** The world without what logging reads and writes: the configured log
    level and the console. *)
Definition eraseLogging (w : World) : World :=
  let s := game_settings w in
  mkWorld (game_user w) (game_actors w)
          (mkSettings (gmRuin s) (gmRuinMax s) (showMaxFate s)
                      (allowPlayerUse s) (showChatMessages s) "")
          (players_rendered w) (notifications w) (chatLog w) [] (renders w).

(** Two worlds that differ at most in log level and console. *)
Definition sameButLogging (w1 w2 : World) : Prop :=
  eraseLogging w1 = eraseLogging w2.

(** A computation on which logging has no influence: from worlds that
    differ at most in log level and console it completes alike and
    leaves worlds that differ at most in log level and console. *)
Definition ignoresLogging {A} (m : Async A) : Prop :=
  forall w1 w2,
    sameButLogging w1 w2 ->
    fst (m w1) = fst (m w2) /\ sameButLogging (snd (m w1)) (snd (m w2)).

(** The chat message a Ruin operation sends. *)
Definition ruinMessage (localeKey : string) (amount newValue maxValue : Z)
  : ChatMessage :=
  mkChat "impmal-shared-fate-message ruin-message" localeKey "GM"
         amount None newValue maxValue.

(** A host that accepts every settings write and every chat message. *)
Definition acceptsRuinWrites (h : Host) : Prop :=
  (forall v, acceptsSettingWrite h v = true)
  /\ (forall m, acceptsChatMessage h m = true).

(** The world after the Ruin value [v] was stored. *)
Definition ruinWritten (v : Z) (w : World) : World :=
  let s := game_settings w in
  with_settings (mkSettings (Some v) (gmRuinMax s) (showMaxFate s)
                            (allowPlayerUse s) (showChatMessages s)
                            (logLevel s)) w.

(** The world after the fate value [v] was stored on the actor at [r]. *)
Definition fateWritten (r : ActorRef) (v : Z) (w : World) : World :=
  with_actors (alter (set_fate_value v) r (game_actors w)) w.

(** The world after the error ["UpdateFailed"] has been shown. *)
Definition failureReported (w : World) : World :=
  with_notifications
    (notifications w ++ [mkNotification "UpdateFailed" NError]) w.

(** The world after the chat message [m] was created. *)
Definition chatCreated (m : ChatMessage) (w : World) : World :=
  with_chatLog (chatLog w ++ [m]) w.

(** A call that only reported a failed update: the error is shown, and
    settings, actors and chat log are what they were. *)
Definition reportsFailure (w w' : World) : Prop :=
  notifications w'
  = (notifications w ++ [mkNotification "UpdateFailed" NError])%list
  /\ game_settings w' = game_settings w
  /\ game_actors w' = game_actors w
  /\ chatLog w' = chatLog w.

(** A host that accepts every actor update. *)
Definition acceptsFateWrites (h : Host) : Prop :=
  forall r v, acceptsActorUpdate h r v = true.

(** The actor at [j] is a character with a player owner that [user] owns:
    what the fallback of [getPlayerCharacter] looks for. *)
Definition ownsCharacterAt (w : World) (user : User) (j : nat) : Prop :=
  exists a,
    game_actors w !! j = Some a
    /\ actor_type a = "character"
    /\ hasPlayerOwner a = true
    /\ In (user_id user) (actor_owners a).

(** [user.character] is an actor of type ["character"]. *)
Definition assignedCharacter (w : World) (user : User) (r : nat) : Prop :=
  character user = Some r
  /\ exists a, game_actors w !! r = Some a /\ actor_type a = "character".

(** The chat message that announces that the fate of [actor] went from
    [old] to [new]. *)
Definition fateChangeMessage (actor : Actor) (old new : Z) : ChatMessage :=
  mkChat "impmal-shared-fate-message fate-message"
         (if old <? new then "Chat.FateIncreased" else "Chat.FateDecreased")
         (actor_name actor) (Z.abs (new - old)) (Some old) new
         (fateMaxOf actor).

(** The world after [UIHandler.refresh()]. *)
Definition refreshed (w : World) : World :=
  if players_rendered w then with_renders (S (renders w)) w else w.

(** [Number.MAX_SAFE_INTEGER]: up to it, in absolute value, the sums and
    differences of integers that the operations compute are exact in the
    numbers of the source. *)
Definition MAX_SAFE_INTEGER : Z := 2 ^ 53 - 1.

(** * Properties *)

(** Unfolds the monadic plumbing so that an operation becomes a term on
    the world it runs in. *)
Ltac run_async :=
  unfold mbind, mret, Async_bind, Async_ret, tryCatch, getSetting, gets,
    notify, modify, throw in *;
  cbn beta iota in *.

#[global] Arguments getPlayerCharacter : simpl never.
#[global] Arguments getFatePoints : simpl never.
#[global] Arguments getRuinPoints : simpl never.
#[global] Arguments _canUseFate : simpl never.
#[global] Arguments log : simpl never.
#[global] Arguments character_update : simpl never.
#[global] Arguments setSetting_GM_RUIN : simpl never.
#[global] Arguments ChatMessage_create : simpl never.
#[global] Arguments _sendRuinChatMessage : simpl never.
#[global] Arguments sendFateChangeMessage : simpl never.

Lemma log_state (level message : string) (w : World) :
  exists c, log level message w = (Returned tt, with_console c w).
Proof.
  unfold log. destruct (_ >? _).
  - exists (console w). by destruct w.
  - by eexists.
Qed.

(** *** Refusals *)

Lemma addFate_non_gm h w user amount :
  isGM (game_user w) = false ->
  addFate h user amount w = (Returned false, warned "GMOnly" w).
Proof. intros E. unfold addFate. run_async. by rewrite E. Qed.

Lemma removeFate_non_gm h w user amount :
  isGM (game_user w) = false ->
  removeFate h user amount w = (Returned false, warned "GMOnly" w).
Proof. intros E. unfold removeFate. run_async. by rewrite E. Qed.

Lemma addRuin_non_gm h w amount opts :
  isGM (game_user w) = false ->
  addRuin h amount opts w = (Returned false, warned "GMOnly" w).
Proof. intros E. unfold addRuin. run_async. by rewrite E. Qed.

Lemma removeRuin_non_gm h w amount opts :
  isGM (game_user w) = false ->
  removeRuin h amount opts w = (Returned false, warned "GMOnly" w).
Proof. intros E. unfold removeRuin. run_async. by rewrite E. Qed.

Lemma useRuin_non_gm h w amount opts :
  isGM (game_user w) = false ->
  useRuin h amount opts w = (Returned false, warned "GMOnly" w).
Proof. intros E. unfold useRuin. run_async. by rewrite E. Qed.

Lemma useFate_unauthorized h w user amount :
  _canUseFate w user = false ->
  useFate h user amount w = (Returned false, warned "CannotUseFate" w).
Proof. intros E. unfold useFate. run_async. by rewrite E. Qed.

Lemma useFate_no_character h w user amount :
  _canUseFate w user = true ->
  getPlayerCharacter w (Some user) = None ->
  useFate h user amount w = (Returned false, warned "NoCharacter" w).
Proof.
  intros E1 E2. unfold useFate. run_async. rewrite E1. cbn. by rewrite E2.
Qed.

Lemma useFate_insufficient h w user amount r fp :
  _canUseFate w user = true ->
  getPlayerCharacter w (Some user) = Some r ->
  getFatePoints w user = Some fp ->
  current fp < amount ->
  useFate h user amount w = (Returned false, warned "InsufficientFate" w).
Proof.
  intros E1 E2 E3 Hlt. unfold useFate. run_async.
  rewrite E1. cbn. rewrite E2. cbn. rewrite E3. cbn.
  by apply Z.ltb_lt in Hlt as ->.
Qed.

(** *** What a completed call leaves behind *)

Lemma sameState_refl w : sameState w w.
Proof. by unfold sameState. Qed.

Lemma log_sameState level message w c w' :
  log level message w = (c, w') -> c = Returned tt /\ sameState w w'.
Proof.
  destruct (log_state level message w) as [l ->]. intros [= <- <-]. done.
Qed.

Lemma ChatMessage_create_sameState h m w c w' :
  ChatMessage_create h m w = (c, w') -> sameState w w'.
Proof.
  unfold ChatMessage_create. destruct (acceptsChatMessage h m); by intros [= <- <-].
Qed.

Lemma _sendRuinChatMessage_sameState h action amount newValue maxValue w c w' :
  _sendRuinChatMessage h action amount newValue maxValue w = (c, w') ->
  sameState w w'.
Proof.
  unfold _sendRuinChatMessage.
  repeat (destruct (String.eqb action _));
    first [ apply ChatMessage_create_sameState | by intros [= <- <-] ].
Qed.

Lemma sendFateChangeMessage_sameState h actor o n m d w c w' :
  sendFateChangeMessage h actor o n m d w = (c, w') -> sameState w w'.
Proof.
  unfold sendFateChangeMessage.
  destruct (d >? 0); [apply ChatMessage_create_sameState|].
  destruct (d <? 0); [apply ChatMessage_create_sameState|].
  by intros [= <- <-].
Qed.

Lemma setSetting_GM_RUIN_returned h v w w' :
  setSetting_GM_RUIN h v w = (Returned tt, w') ->
  acceptsSettingWrite h v = true
  /\ gmRuin (game_settings w') = Some v
  /\ gmRuinMax (game_settings w') = gmRuinMax (game_settings w)
  /\ game_actors w' = game_actors w
  /\ game_user w' = game_user w.
Proof.
  unfold setSetting_GM_RUIN. destruct (acceptsSettingWrite h v); [|done].
  by intros [= <-].
Qed.

Lemma character_update_returned h r v w w' :
  character_update h r v w = (Returned tt, w') ->
  acceptsActorUpdate h r v = true
  /\ game_actors w' = alter (set_fate_value v) r (game_actors w)
  /\ game_settings w' = game_settings w
  /\ game_user w' = game_user w.
Proof.
  unfold character_update. destruct (acceptsActorUpdate h r v); [|done].
  by intros [= <-].
Qed.

(** The shared shape of the three Ruin operations after the GM check:
    write, log, optional chat message, [true]; on a throw log, notify,
    [false].  It always completes with a boolean, and the only thing it
    can change in the settings is the Ruin value, to [v]. *)
Lemma ruin_write_outcome h v infoMsg errMsg (chat : bool) action amount mx w c w' :
  tryCatch
    (setSetting_GM_RUIN h v;;
     log "info" infoMsg;;
     (if chat then _sendRuinChatMessage h action amount v mx else mret tt);;
     mret true)
    (log "error" errMsg;; notify "UpdateFailed" NError;; mret false) w
  = (c, w') ->
  exists b : bool,
    c = Returned b
    /\ game_actors w' = game_actors w
    /\ gmRuinMax (game_settings w') = gmRuinMax (game_settings w)
    /\ (b = true -> gmRuin (game_settings w') = Some v)
    /\ (gmRuin (game_settings w') = Some v
        \/ gmRuin (game_settings w') = gmRuin (game_settings w)).
Proof.
  run_async.
  destruct (setSetting_GM_RUIN h v w) as [[[]|] w1] eqn:Eset.
  - apply setSetting_GM_RUIN_returned in Eset as (_ & Hv & Hm & Ha & _).
    destruct (log "info" infoMsg w1) as [c2 w2] eqn:Elog.
    apply log_sameState in Elog as [-> (_ & Ha2 & Hs2)].
    destruct chat.
    + destruct (_sendRuinChatMessage h action amount v mx w2) as [[[]|] w3] eqn:Echat;
        apply _sendRuinChatMessage_sameState in Echat as (_ & Ha3 & Hs3).
      * intros [= <- <-]. exists true.
        rewrite Hs3, Hs2, Ha3, Ha2, Hv, Hm, Ha. repeat split; auto.
      * destruct (log "error" errMsg w3) as [c4 w4] eqn:Elog'.
        apply log_sameState in Elog' as [-> (_ & Ha4 & Hs4)].
        intros [= <- <-]. exists false. cbn.
        rewrite Hs4, Hs3, Hs2, Ha4, Ha3, Ha2, Hv, Hm, Ha. repeat split; auto.
    + intros [= <- <-]. exists true.
      rewrite Hs2, Ha2, Hv, Hm, Ha. repeat split; auto.
  - unfold setSetting_GM_RUIN in Eset.
    destruct (acceptsSettingWrite h v); [done|]. injection Eset as <-.
    destruct (log "error" errMsg w) as [c4 w4] eqn:Elog'.
    apply log_sameState in Elog' as [-> (_ & Ha4 & Hs4)].
    intros [= <- <-]. exists false. cbn. rewrite Hs4, Ha4.
    repeat split; auto. done.
Qed.

(** With a host that accepts the writes the shared shape returns [true]. *)
Lemma ruin_write_accepted h v infoMsg errMsg (chat : bool) action amount mx w :
  acceptsSettingWrite h v = true ->
  (forall m, acceptsChatMessage h m = true) ->
  exists w',
    tryCatch
      (setSetting_GM_RUIN h v;;
       log "info" infoMsg;;
       (if chat then _sendRuinChatMessage h action amount v mx else mret tt);;
       mret true)
      (log "error" errMsg;; notify "UpdateFailed" NError;; mret false) w
    = (Returned true, w').
Proof.
  intros Hset Hchat. run_async. unfold setSetting_GM_RUIN. rewrite Hset. cbn.
  match goal with |- context [log "info" infoMsg ?w1] =>
    destruct (log_state "info" infoMsg w1) as [l ->] end.
  destruct chat; [|by eexists].
  unfold _sendRuinChatMessage, ChatMessage_create.
  repeat (destruct (String.eqb action _)); rewrite ?Hchat; by eexists.
Qed.

(** The shared shape of the three Fate operations once the new value is
    known: update the character, log, [true]; on a throw log, notify,
    [false].  It always completes with a boolean, [true] exactly when the
    character was updated. *)
Lemma fate_write_outcome h r v infoMsg errMsg w c w' :
  tryCatch
    (character_update h r v;; log "info" infoMsg;; mret true)
    (log "error" errMsg;; notify "UpdateFailed" NError;; mret false) w
  = (c, w') ->
  game_settings w' = game_settings w
  /\ ((c = Returned true
       /\ game_actors w' = alter (set_fate_value v) r (game_actors w))
      \/ (c = Returned false /\ game_actors w' = game_actors w)).
Proof.
  run_async.
  destruct (character_update h r v w) as [[[]|] w1] eqn:Eupd.
  - apply character_update_returned in Eupd as (Hacc & Ha & Hs & _).
    destruct (log "info" infoMsg w1) as [c2 w2] eqn:Elog.
    apply log_sameState in Elog as [-> (_ & Ha2 & Hs2)].
    intros [= <- <-]. rewrite Ha2, Hs2. auto.
  - unfold character_update in Eupd.
    destruct (acceptsActorUpdate h r v); [done|]. injection Eupd as <-.
    destruct (log "error" errMsg w) as [c4 w4] eqn:Elog'.
    apply log_sameState in Elog' as [-> (_ & Ha4 & Hs4)].
    intros [= <- <-]. cbn. rewrite Hs4, Ha4. auto.
Qed.

Lemma fate_write_accepted h r v infoMsg errMsg w :
  acceptsActorUpdate h r v = true ->
  exists w',
    tryCatch
      (character_update h r v;; log "info" infoMsg;; mret true)
      (log "error" errMsg;; notify "UpdateFailed" NError;; mret false) w
    = (Returned true, w').
Proof.
  intros Hacc. run_async. unfold character_update. rewrite Hacc.
  destruct (log_state "info" infoMsg
              (with_actors (alter (set_fate_value v) r (game_actors w)) w))
    as [c ->].
  by eexists.
Qed.

(** *** Resolving the character again after its fate value was written *)

Lemma findRef_alter {A} (p : A -> bool) (f : A -> A) (i : nat) (l : list A) :
  (forall a, p (f a) = p a) ->
  findRef p (alter f i l) = findRef p l.
Proof.
  intros Hp. revert i. induction l as [|x l IH]; intros [|i]; cbn; try done.
  - by rewrite Hp.
  - by rewrite IH.
Qed.

Lemma lookup_alter_set_fate_value v r (l : list Actor) (i : nat) :
  alter (set_fate_value v) r l !! i
  = (if decide (r = i) then set_fate_value v <$> l !! i else l !! i).
Proof.
  rewrite list_lookup_alter. by case_decide; subst.
Qed.

Lemma getPlayerCharacter_after_write w w' v r user :
  game_actors w' = alter (set_fate_value v) r (game_actors w) ->
  getPlayerCharacter w' user = getPlayerCharacter w user.
Proof.
  intros Ha. unfold getPlayerCharacter. destruct user as [u|]; [|done].
  destruct (isGM u); [done|]. rewrite Ha.
  rewrite findRef_alter; [|reflexivity].
  destruct (character u) as [c|]; cbn; [|done].
  rewrite lookup_alter_set_fate_value.
  case_decide; [|done].
  destruct (game_actors w !! c); reflexivity.
Qed.

Lemma getFatePoints_after_write w w' v r user fp :
  getPlayerCharacter w (Some user) = Some r ->
  getFatePoints w user = Some fp ->
  game_actors w' = alter (set_fate_value v) r (game_actors w) ->
  getFatePoints w' user = Some (mkPoints v (max fp)).
Proof.
  intros Hr Hfp Ha. unfold getFatePoints in *.
  destruct (isGM user); [done|].
  rewrite (getPlayerCharacter_after_write w w' v r) by done.
  rewrite Hr in *. rewrite Ha, lookup_alter_set_fate_value.
  case_decide; [|done].
  destruct (game_actors w !! r) as [a|]; cbn in *; [|done].
  destruct (system_fate a) as [fate|]; cbn in *; [|done].
  by injection Hfp as <-.
Qed.

(** *** The six operations, call by call *)

Lemma getRuinPoints_after_write w w' :
  gmRuinMax (game_settings w') = gmRuinMax (game_settings w) ->
  max (getRuinPoints w') = max (getRuinPoints w)
  /\ (forall v, gmRuin (game_settings w') = Some v -> current (getRuinPoints w') = v)
  /\ (gmRuin (game_settings w') = gmRuin (game_settings w) ->
      current (getRuinPoints w') = current (getRuinPoints w)).
Proof.
  unfold getRuinPoints. cbn. intros ->. repeat split.
  - by intros v ->.
  - by intros ->.
Qed.

Lemma ruinOutcome_of_write h v infoMsg errMsg (chat : bool) action amount mx w c w' :
  tryCatch
    (setSetting_GM_RUIN h v;;
     log "info" infoMsg;;
     (if chat then _sendRuinChatMessage h action amount v mx else mret tt);;
     mret true)
    (log "error" errMsg;; notify "UpdateFailed" NError;; mret false) w
  = (c, w') ->
  ruinOutcome v w c w'.
Proof.
  intros H. apply ruin_write_outcome in H as (b & -> & Ha & Hm & Ht & Hv).
  destruct (getRuinPoints_after_write w w' Hm) as (Hmax & Hset & Hkeep).
  exists b. repeat split; auto. destruct Hv; auto.
Qed.

Lemma ruinOutcome_refused v key w :
  ruinOutcome v w (Returned false) (warned key w).
Proof. exists false. repeat split; auto. done. Qed.

Lemma useRuin_outcome h amount opts w c w' :
  useRuin h amount opts w = (c, w') ->
  ruinOutcome (Z.max 0 (current (getRuinPoints w) - amount)) w c w'
  /\ (c = Returned true ->
      isGM (game_user w) = true /\ amount <= current (getRuinPoints w)).
Proof.
  unfold useRuin. run_async.
  destruct (isGM (game_user w)); cbn.
  2:{ intros [= <- <-]. split; [apply ruinOutcome_refused | done]. }
  destruct (current (getRuinPoints w) <? amount) eqn:Elt.
  { intros [= <- <-]. split; [apply ruinOutcome_refused | done]. }
  intros H. apply Z.ltb_ge in Elt. split; [|done].
  exact (ruinOutcome_of_write _ _ _ _ _ _ _ _ _ _ _ H).
Qed.

Lemma addRuin_outcome h amount opts w c w' :
  addRuin h amount opts w = (c, w') ->
  ruinOutcome (Z.min (max (getRuinPoints w)) (current (getRuinPoints w) + amount))
              w c w'
  /\ (c = Returned true -> isGM (game_user w) = true).
Proof.
  unfold addRuin. run_async.
  destruct (isGM (game_user w)); cbn.
  2:{ intros [= <- <-]. split; [apply ruinOutcome_refused | done]. }
  intros H. split; [|done].
  exact (ruinOutcome_of_write _ _ _ _ _ _ _ _ _ _ _ H).
Qed.

Lemma removeRuin_outcome h amount opts w c w' :
  removeRuin h amount opts w = (c, w') ->
  ruinOutcome (Z.max 0 (current (getRuinPoints w) - amount)) w c w'
  /\ (c = Returned true -> isGM (game_user w) = true).
Proof.
  unfold removeRuin. run_async.
  destruct (isGM (game_user w)); cbn.
  2:{ intros [= <- <-]. split; [apply ruinOutcome_refused | done]. }
  intros H. split; [|done].
  exact (ruinOutcome_of_write _ _ _ _ _ _ _ _ _ _ _ H).
Qed.

Lemma fateOutcome_of_write h r v user fp infoMsg errMsg w c w' :
  getPlayerCharacter w (Some user) = Some r ->
  getFatePoints w user = Some fp ->
  tryCatch
    (character_update h r v;; log "info" infoMsg;; mret true)
    (log "error" errMsg;; notify "UpdateFailed" NError;; mret false) w
  = (c, w') ->
  fateOutcome v user w c w'.
Proof.
  intros Hr Hfp H.
  apply fate_write_outcome in H as (Hs & [[-> Ha]|[-> Ha]]); split; auto.
  - left. split; [done|]. exists fp. split; [done|].
    by apply (getFatePoints_after_write w w' v r).
  - right. repeat split; auto.
    unfold getFatePoints, getPlayerCharacter. by rewrite Ha.
Qed.

Lemma fateOutcome_refused v user key w :
  fateOutcome v user w (Returned false) (warned key w).
Proof. split; [done|]. right. done. Qed.

Lemma useFate_outcome h user amount fp w c w' :
  getFatePoints w user = Some fp ->
  useFate h user amount w = (c, w') ->
  fateOutcome (Z.max 0 (current fp - amount)) user w c w'
  /\ (c = Returned true ->
      _canUseFate w user = true /\ amount <= current fp).
Proof.
  intros Hfp. unfold useFate. run_async.
  destruct (_canUseFate w user); cbn.
  2:{ intros [= <- <-]. split; [apply fateOutcome_refused | done]. }
  destruct (getPlayerCharacter w (Some user)) as [r|] eqn:Hr; cbn.
  2:{ intros [= <- <-]. split; [apply fateOutcome_refused | done]. }
  rewrite Hfp. cbn.
  destruct (current fp <? amount) eqn:Elt.
  { intros [= <- <-]. split; [apply fateOutcome_refused | done]. }
  intros H. apply Z.ltb_ge in Elt. split; [|done].
  exact (fateOutcome_of_write _ _ _ _ _ _ _ _ _ _ Hr Hfp H).
Qed.

Lemma addFate_outcome h user amount fp w c w' :
  getFatePoints w user = Some fp ->
  addFate h user amount w = (c, w') ->
  fateOutcome (Z.min (max fp) (current fp + amount)) user w c w'
  /\ (c = Returned true -> isGM (game_user w) = true).
Proof.
  intros Hfp. unfold addFate. run_async.
  destruct (isGM (game_user w)); cbn.
  2:{ intros [= <- <-]. split; [apply fateOutcome_refused | done]. }
  destruct (getPlayerCharacter w (Some user)) as [r|] eqn:Hr; cbn.
  2:{ intros [= <- <-]. split; [apply fateOutcome_refused | done]. }
  rewrite Hfp. cbn.
  intros H. split; [|done].
  exact (fateOutcome_of_write _ _ _ _ _ _ _ _ _ _ Hr Hfp H).
Qed.

Lemma removeFate_outcome h user amount fp w c w' :
  getFatePoints w user = Some fp ->
  removeFate h user amount w = (c, w') ->
  fateOutcome (Z.max 0 (current fp - amount)) user w c w'
  /\ (c = Returned true -> isGM (game_user w) = true).
Proof.
  intros Hfp. unfold removeFate. run_async.
  destruct (isGM (game_user w)); cbn.
  2:{ intros [= <- <-]. split; [apply fateOutcome_refused | done]. }
  destruct (getPlayerCharacter w (Some user)) as [r|] eqn:Hr; cbn.
  2:{ intros [= <- <-]. split; [apply fateOutcome_refused | done]. }
  rewrite Hfp. cbn.
  intros H. split; [|done].
  exact (fateOutcome_of_write _ _ _ _ _ _ _ _ _ _ Hr Hfp H).
Qed.

(** A [true] result of a Ruin operation fixes the Ruin read back. *)
Lemma ruinOutcome_true v w w' :
  ruinOutcome v w (Returned true) w' ->
  getRuinPoints w' = mkPoints v (max (getRuinPoints w)).
Proof.
  intros (b & [= <-] & _ & Hm & Hv & _).
  destruct (getRuinPoints w') as [c' m'] eqn:E. cbn in *.
  by rewrite Hm, (Hv eq_refl).
Qed.

(** A [true] result of a Fate operation fixes the fate read back. *)
Lemma fateOutcome_true v user fp w w' :
  getFatePoints w user = Some fp ->
  fateOutcome v user w (Returned true) w' ->
  getFatePoints w' user = Some (mkPoints v (max fp)).
Proof.
  intros Hfp (_ & [[_ (fp' & Hfp' & H)]|[[=] _]]).
  rewrite Hfp in Hfp'. by injection Hfp' as <-.
Qed.


(** C3 as amended: on a Fate or Ruin state with [0 <= current <= max] and
    with an amount [>= 0], whatever one of the six operations does,
    [useRuin], [addRuin], [removeRuin], [useFate], [addFate] or
    [removeFate], and however the call ends, the value of the resource
    afterwards is still within [0 .. max]: every value written is. *)
Theorem nonnegative_amount_keeps_bounds
    (h : Host) (user : User) (opts : Options) (w w' : World)
    (c : Completion bool) (amount : Z) :
  0 <= amount ->
  (0 <= current (getRuinPoints w) <= max (getRuinPoints w) ->
   useRuin h amount opts w = (c, w')
   \/ addRuin h amount opts w = (c, w')
   \/ removeRuin h amount opts w = (c, w') ->
   0 <= current (getRuinPoints w') <= max (getRuinPoints w'))
  /\ (forall fp, getFatePoints w user = Some fp ->
      0 <= current fp <= max fp ->
      useFate h user amount w = (c, w')
      \/ addFate h user amount w = (c, w')
      \/ removeFate h user amount w = (c, w') ->
      exists fp', getFatePoints w' user = Some fp'
                  /\ 0 <= current fp' <= max fp').
Proof.
  intros Hamount. split.
  - intros Hinv Hcall.
    assert (exists v, ruinOutcome v w c w' /\ 0 <= v <= max (getRuinPoints w))
      as (v & (b & _ & _ & Hm & _ & Hv) & Hb).
    { destruct Hcall as [H|[H|H]].
      - apply useRuin_outcome in H as [H _]. eexists. split; [exact H|lia].
      - apply addRuin_outcome in H as [H _]. eexists. split; [exact H|lia].
      - apply removeRuin_outcome in H as [H _]. eexists. split; [exact H|lia]. }
    rewrite Hm. destruct Hv as [-> | ->]; lia.
  - intros fp Hfp Hinv Hcall.
    assert (exists v, fateOutcome v user w c w' /\ 0 <= v <= max fp)
      as (v & (_ & Ho) & Hb).
    { destruct Hcall as [H|[H|H]].
      - apply (useFate_outcome _ _ _ _ _ _ _ Hfp) in H as [H _].
        eexists. split; [exact H|lia].
      - apply (addFate_outcome _ _ _ _ _ _ _ Hfp) in H as [H _].
        eexists. split; [exact H|lia].
      - apply (removeFate_outcome _ _ _ _ _ _ _ Hfp) in H as [H _].
        eexists. split; [exact H|lia]. }
    destruct Ho as [(_ & fp0 & Hfp0 & Hafter)|(_ & Hsame & _)].
    + rewrite Hfp in Hfp0. injection Hfp0 as <-.
      exists (mkPoints v (max fp)). done.
    + exists fp. by rewrite Hsame.
Qed.

(** C4: in a session whose user is not a GM, [addFate], [removeFate],
    [addRuin], [removeRuin] and [useRuin] return [false], show the
    ["GMOnly"] warning and leave the characters and the settings, hence
    all Fate and Ruin, as they were. *)
Theorem non_gm_session_is_refused
    (h : Host) (user : User) (opts : Options) (amount : Z) (w : World) :
  isGM (game_user w) = false ->
  let w' := warned "GMOnly" w in
  addFate h user amount w = (Returned false, w')
  /\ removeFate h user amount w = (Returned false, w')
  /\ addRuin h amount opts w = (Returned false, w')
  /\ removeRuin h amount opts w = (Returned false, w')
  /\ useRuin h amount opts w = (Returned false, w')
  /\ notifications w' = (notifications w ++ [mkNotification "GMOnly" NWarn])%list
  /\ game_actors w' = game_actors w
  /\ game_settings w' = game_settings w
  /\ getRuinPoints w' = getRuinPoints w
  /\ (forall u, getFatePoints w' u = getFatePoints w u).
Proof.
  intros E w'. repeat split.
  - by apply addFate_non_gm.
  - by apply removeFate_non_gm.
  - by apply addRuin_non_gm.
  - by apply removeRuin_non_gm.
  - by apply useRuin_non_gm.
Qed.

(** C5: [useFate(user, amount)] returns [false], shows a warning and
    leaves the character's fate as it was whenever the acting session is
    not authorised, no character resolves for [user], or the current fate
    is below [amount]. *)
Theorem useFate_refusal_leaves_state
    (h : Host) (user : User) (amount : Z) (w : World) :
  _canUseFate w user = false
  \/ getPlayerCharacter w (Some user) = None
  \/ (exists fp, getFatePoints w user = Some fp /\ current fp < amount) ->
  exists key,
    let w' := warned key w in
    useFate h user amount w = (Returned false, w')
    /\ notifications w' = (notifications w ++ [mkNotification key NWarn])%list
    /\ game_actors w' = game_actors w
    /\ game_settings w' = game_settings w
    /\ getFatePoints w' user = getFatePoints w user.
Proof.
  intros Hcase.
  destruct (_canUseFate w user) eqn:Hcan.
  2:{ exists "CannotUseFate". cbn. by rewrite useFate_unauthorized. }
  destruct (getPlayerCharacter w (Some user)) as [r|] eqn:Hr.
  2:{ exists "NoCharacter". cbn. by rewrite useFate_no_character. }
  destruct Hcase as [?|[?|(fp & Hfp & Hlt)]]; [done..|].
  exists "InsufficientFate". cbn.
  by rewrite (useFate_insufficient h w user amount r fp).
Qed.

(** C6: with "allow player use" switched off, [useFate] on a non-GM user
    returns [false] in that user's own session, and in a GM's session it
    returns [true] and writes the new value, as long as the character
    resolves, holds at least [amount] fate and the host accepts the
    update. *)
Theorem allowPlayerUse_off_gates_useFate
    (h : Host) (user : User) (amount : Z) (w : World) :
  allowPlayerUse (game_settings w) = false ->
  isGM user = false ->
  (game_user w = user ->
   useFate h user amount w = (Returned false, warned "CannotUseFate" w))
  /\ (isGM (game_user w) = true ->
      forall r fp,
        getPlayerCharacter w (Some user) = Some r ->
        getFatePoints w user = Some fp ->
        amount <= current fp ->
        acceptsActorUpdate h r (Z.max 0 (current fp - amount)) = true ->
        exists w',
          useFate h user amount w = (Returned true, w')
          /\ getFatePoints w' user
             = Some (mkPoints (Z.max 0 (current fp - amount)) (max fp))).
Proof.
  intros Hoff Hplayer. split.
  - intros Hself. apply useFate_unauthorized.
    unfold _canUseFate. by rewrite Hplayer, Hoff, Hself, Hplayer.
  - intros Hgm r fp Hr Hfp Hle Hacc.
    assert (_canUseFate w user = true) as Hcan.
    { unfold _canUseFate. by rewrite Hplayer, Hoff, Hgm. }
    destruct (fate_write_accepted h r (Z.max 0 (current fp - amount))
                "Fate point used" "Failed to use fate point" w Hacc)
      as [w' Hw'].
    assert (useFate h user amount w = (Returned true, w')) as Hcall.
    { unfold useFate. run_async. rewrite Hcan. cbn. rewrite Hr. cbn.
      rewrite Hfp. cbn. apply Z.ltb_ge in Hle as ->. exact Hw'. }
    exists w'. split; [done|].
    apply (useFate_outcome _ _ _ _ _ _ _ Hfp) in Hcall as [Ho _].
    by apply (fateOutcome_true _ _ _ _ _ Hfp Ho).
Qed.

(** C9: for a user whose [isGM] flag is set, [useFate] returns [false]
    with the ["CannotUseFate"] warning and changes nothing else, whoever
    the acting session is and whatever the amount. *)
Theorem useFate_on_gm_user_is_refused
    (h : Host) (user : User) (amount : Z) (w : World) :
  isGM user = true ->
  let w' := warned "CannotUseFate" w in
  useFate h user amount w = (Returned false, w')
  /\ notifications w'
     = (notifications w ++ [mkNotification "CannotUseFate" NWarn])%list
  /\ game_actors w' = game_actors w
  /\ game_settings w' = game_settings w
  /\ chatLog w' = chatLog w.
Proof.
  intros Hgm w'. repeat split.
  apply useFate_unauthorized. unfold _canUseFate. by rewrite Hgm.
Qed.

(** *** The actor hooks *)

Lemma sendFateChangeMessage_zero h actor o n m w :
  sendFateChangeMessage h actor o n m 0 w = (Returned tt, w).
Proof. reflexivity. Qed.

(** Without a snapshot, or with a snapshot of the value the actor still
    has, the post-update handler returns at once. *)
Lemma updateActor_same_value h actor changes options userId w :
  (forall snapshot, _impmalSharedFate options = Some snapshot ->
                    oldFateValue snapshot = fateValueOf actor) ->
  updateActor h actor changes options userId w = (Returned tt, w).
Proof.
  intros Hsame. unfold updateActor.
  destruct (_impmalSharedFate options) as [snapshot|]; [|done].
  destruct (negb _); [done|].
  rewrite (Hsame snapshot eq_refl), Z.eqb_refl. done.
Qed.

Lemma preUpdateActor_options actor changes userId w :
  exists options w',
    preUpdateActor actor changes (mkUpdateOptions None) userId w
    = (Returned options, w')
    /\ sameState w w'
    /\ chatLog w' = chatLog w
    /\ renders w' = renders w
    /\ (forall snapshot, _impmalSharedFate options = Some snapshot ->
                         oldFateValue snapshot = fateValueOf actor).
Proof.
  unfold preUpdateActor.
  destruct (negb _).
  { exists (mkUpdateOptions None), w. repeat split; done. }
  destruct (change_fate_value changes).
  2:{ exists (mkUpdateOptions None), w. repeat split; done. }
  run_async.
  destruct (log_state "debug" "Tracking fate change" w) as [c ->].
  eexists _, _. split; [done|]. repeat split; try done.
  by intros snapshot [= <-].
Qed.

(** C7: an update whose old and new fate values are equal produces no
    chat message: the post-update handler returns before it messages or
    refreshes, in the session that performs the update the chat log is
    what it was, and [sendFateChangeMessage] with difference [0] does
    nothing. *)
Theorem zero_difference_produces_no_chat
    (h : Host) (actor : Actor) (changes : Changes) (userId : string)
    (w : World) :
  fateValueOf (applyChanges changes actor) = fateValueOf actor ->
  (forall options,
     (forall snapshot, _impmalSharedFate options = Some snapshot ->
                       oldFateValue snapshot = fateValueOf actor) ->
     updateActor h (applyChanges changes actor) changes options userId w
     = (Returned tt, w))
  /\ (exists w',
        actorUpdateInSession h actor changes userId w = (Returned tt, w')
        /\ chatLog w' = chatLog w
        /\ renders w' = renders w)
  /\ (forall a oldValue newValue maxValue,
        sendFateChangeMessage h a oldValue newValue maxValue 0 w
        = (Returned tt, w)).
Proof.
  intros Hsame. repeat split.
  - intros options Hsnap. apply updateActor_same_value.
    intros snapshot Hs. rewrite Hsame. by apply Hsnap.
  - destruct (preUpdateActor_options actor changes userId w)
      as (options & w1 & Hpre & _ & Hchat & Hrend & Hsnap).
    exists w1. unfold actorUpdateInSession. run_async. rewrite Hpre.
    rewrite updateActor_same_value; [done|].
    intros snapshot Hs. rewrite Hsame. by apply Hsnap.
Qed.

(** What the post-update handler does in one session when the snapshot
    belongs to the actor and the value changed. *)
Lemma updateActor_changed h actor changes options snapshot userId w :
  _impmalSharedFate options = Some snapshot ->
  actorId snapshot = actor_id actor ->
  fateValueOf actor <> oldFateValue snapshot ->
  (forall m, acceptsChatMessage h m = true) ->
  let w' := snd (updateActor h actor changes options userId w) in
  sameState w w'
  /\ notifications w' = notifications w
  /\ renders w' = (if players_rendered w then S (renders w) else renders w)
  /\ length (chatLog w')
     = (length (chatLog w)
        + (if String.eqb userId (user_id (game_user w))
              && showChatMessages (game_settings w)
           then 1 else 0))%nat.
Proof.
  intros Hs Hid Hne Hacc. unfold updateActor. rewrite Hs, Hid, String.eqb_refl.
  cbn [negb]. pose proof Hne as Hne'. apply Z.eqb_neq in Hne as ->. run_async.
  destruct (log_state "debug" "Fate changed on actor" w) as [c ->].
  cbn. destruct (String.eqb userId (user_id (game_user w))); cbn.
  2:{ unfold UIHandler.refresh, modify. cbn.
      destruct (players_rendered w); cbn; repeat split; lia. }
  destruct (showChatMessages (game_settings w)); cbn.
  2:{ unfold UIHandler.refresh, modify. cbn.
      destruct (players_rendered w); cbn; repeat split; lia. }
  unfold sendFateChangeMessage, ChatMessage_create.
  destruct (_ >? _) eqn:Egt; [|destruct (_ <? _) eqn:Elt]; rewrite ?Hacc; cbn;
    unfold UIHandler.refresh, modify; cbn;
    destruct (players_rendered w); cbn; rewrite ?length_app; cbn;
    repeat split; lia.
Qed.

(** Over sessions with pairwise distinct users that all see the same
    "show chat messages" value, the broadcast adds one message when the
    acting user's session is connected and the setting is on, none
    otherwise. *)
Lemma broadcastUpdate_totalChat h actor changes options snapshot userId
    (enabled : bool) (sessions : list World) :
  _impmalSharedFate options = Some snapshot ->
  actorId snapshot = actor_id actor ->
  fateValueOf actor <> oldFateValue snapshot ->
  (forall m, acceptsChatMessage h m = true) ->
  NoDup (sessionIds sessions) ->
  Forall (fun w => showChatMessages (game_settings w) = enabled) sessions ->
  totalChat (broadcastUpdate h actor changes options userId sessions)
  = (totalChat sessions
     + (if bool_decide (userId ∈ sessionIds sessions) && enabled
        then 1 else 0))%nat.
Proof.
  intros Hs Hid Hne Hacc. unfold totalChat, broadcastUpdate.
  induction sessions as [|w l IH]; intros Hnd Hen; [done|].
  cbn in Hnd. apply NoDup_cons in Hnd as [Hnotin Hnd].
  cbn [map sessionIds].
  repeat match goal with
         | |- context [list_sum (?x :: ?l')] =>
           change (list_sum (x :: l')) with (x + list_sum l')%nat
         end.
  destruct (updateActor_changed h actor changes options snapshot userId w
              Hs Hid Hne Hacc) as (_ & _ & _ & Hlen).
  cbn zeta in Hlen. rewrite Hlen.
  apply Forall_cons in Hen as [Hw Hen].
  rewrite IH by done.
  rewrite Hw. fold (sessionIds l).
  destruct (String.eqb userId (user_id (game_user w))) eqn:Eid.
  - apply String.eqb_eq in Eid. subst userId.
    rewrite (bool_decide_eq_true_2 (_ ∈ _ :: _)) by left.
    rewrite (bool_decide_eq_false_2 _ Hnotin). cbn. lia.
  - apply String.eqb_neq in Eid.
    destruct (decide (userId ∈ sessionIds l)) as [Hin|Hout].
    + rewrite (bool_decide_eq_true_2 _ Hin).
      rewrite (bool_decide_eq_true_2 (_ ∈ _ :: _)) by (by right). cbn. lia.
    + rewrite (bool_decide_eq_false_2 _ Hout).
      rewrite (bool_decide_eq_false_2 (_ ∈ _ :: _)); [cbn; lia|].
      by intros [?|?]%elem_of_cons.
Qed.

(** C8 as amended: a fate change observed by sessions with pairwise
    distinct users, the acting user's among them, adds exactly one chat
    message in total when "show chat messages" is on and the host creates
    the message, and none when the setting is off; the sessions of the
    other users only refresh their roster. *)
Theorem one_chat_message_per_change_when_enabled
    (h : Host) (actor : Actor) (changes : Changes) (options : UpdateOptions)
    (snapshot : Snapshot) (userId : string) (enabled : bool)
    (sessions : list World) :
  _impmalSharedFate options = Some snapshot ->
  actorId snapshot = actor_id actor ->
  fateValueOf actor <> oldFateValue snapshot ->
  (forall m, acceptsChatMessage h m = true) ->
  NoDup (sessionIds sessions) ->
  userId ∈ sessionIds sessions ->
  Forall (fun w => showChatMessages (game_settings w) = enabled) sessions ->
  totalChat (broadcastUpdate h actor changes options userId sessions)
  = (totalChat sessions + (if enabled then 1 else 0))%nat
  /\ (forall w, w ∈ sessions ->
      user_id (game_user w) <> userId ->
      let w' := snd (updateActor h actor changes options userId w) in
      chatLog w' = chatLog w
      /\ notifications w' = notifications w
      /\ sameState w w'
      /\ renders w' = (if players_rendered w then S (renders w) else renders w)).
Proof.
  intros Hs Hid Hne Hacc Hnd Hin Hen. split.
  - rewrite (broadcastUpdate_totalChat h actor changes options snapshot
               userId enabled sessions) by done.
    by rewrite (bool_decide_eq_true_2 _ Hin).
  - intros w _ Hother.
    destruct (updateActor_changed h actor changes options snapshot userId w
                Hs Hid Hne Hacc) as (Hsame & Hnote & Hrend & Hlen).
    cbn zeta in *. repeat split; try done; try apply Hsame.
    assert (String.eqb userId (user_id (game_user w)) = false) as Eid
      by (by apply String.eqb_neq).
    clear Hlen. unfold updateActor. rewrite Hs, Hid, String.eqb_refl.
    cbn [negb]. apply Z.eqb_neq in Hne as ->. run_async.
    destruct (log_state "debug" "Fate changed on actor" w) as [c ->].
    cbn. rewrite Eid. cbn. unfold UIHandler.refresh, modify. cbn.
    by destruct (players_rendered w).
Qed.

(** *** The roster badges *)

(** The styling step shared by both badges, after any classes [pre] that
    are neither ["exhausted"] nor ["full"]. *)
Lemma badge_style_classes (pre : list string) (canUse : bool) (p : Points) :
  ~ In "exhausted" pre ->
  ~ In "full" pre ->
  let classes :=
    (pre ++ (if canUse then ["interactive"] else [])
         ++ (if current p =? 0 then ["exhausted"]
             else if current p =? max p then ["full"]
             else []))%list in
  (current p = 0 -> In "exhausted" classes /\ ~ In "full" classes)
  /\ (In "full" classes <-> current p = max p /\ current p <> 0)
  /\ (0 <= current p -> In "full" classes -> current p = max p /\ 0 < current p).
Proof.
  intros He Hf classes. subst classes. rewrite !in_app_iff.
  destruct canUse;
    destruct (current p =? 0) eqn:E0;
    destruct (current p =? max p) eqn:Em;
    cbn; intuition (discriminate || lia).
Qed.

(** C10: in the class list of both the Fate and the Ruin badge,
    ["exhausted"] wins over ["full"]: with [current = 0] the badge is
    ["exhausted"] and not ["full"], whatever the maximum, also [0];
    ["full"] is there exactly when [current = max] and [current <> 0],
    which for a count [current >= 0] means [current > 0]. *)
Theorem exhausted_takes_priority_over_full
    (w : World) (user : User) (fateData : Points) :
  let fateClasses := UIHandler.fateContainerClasses w user fateData in
  let ruinClasses := UIHandler.ruinContainerClasses w user in
  let ruinData := getRuinPoints w in
  (current fateData = 0 ->
   In "exhausted" fateClasses /\ ~ In "full" fateClasses)
  /\ (In "full" fateClasses <->
      current fateData = max fateData /\ current fateData <> 0)
  /\ (0 <= current fateData -> In "full" fateClasses ->
      current fateData = max fateData /\ 0 < current fateData)
  /\ (current ruinData = 0 ->
      In "exhausted" ruinClasses /\ ~ In "full" ruinClasses)
  /\ (In "full" ruinClasses <->
      current ruinData = max ruinData /\ current ruinData <> 0)
  /\ (0 <= current ruinData -> In "full" ruinClasses ->
      current ruinData = max ruinData /\ 0 < current ruinData).
Proof.
  cbn zeta. unfold UIHandler.fateContainerClasses, UIHandler.ruinContainerClasses.
  cbn zeta.
  pose proof (badge_style_classes ["impmal-fate-container"; "fate-container"]
                (UIHandler._canInteractWithFate w user && (current fateData >? 0))
                fateData) as Hfate.
  pose proof (badge_style_classes ["impmal-fate-container"; "ruin-container"]
                (isGM (game_user w) && UIHandler.isSelf w user
                 && (current (getRuinPoints w) >? 0))
                (getRuinPoints w)) as Hruin.
  cbn zeta in Hfate, Hruin.
  destruct Hfate as (F1 & F2 & F3);
    [cbn; intuition discriminate | cbn; intuition discriminate |].
  destruct Hruin as (R1 & R2 & R3);
    [cbn; intuition discriminate | cbn; intuition discriminate |].
  repeat split; first [apply F1 | apply F2 | apply F3
                      | apply R1 | apply R2 | apply R3]; assumption.
Qed.

(** * The properties on the example sessions *)


(** C3 as stated fails: with a negative amount [addRuin] writes a value
    below [0] and [removeRuin] one above the maximum, and on a Ruin value
    that is already above a lowered maximum [removeRuin] writes a value
    that is still above it. *)
Lemma negative_amount_escapes_bounds :
  (getRuinPoints (sessionOf gm (ruinSettings 0 5 true true)) = mkPoints 0 5
   /\ addRuin permissiveHost (-3) noOptions
              (sessionOf gm (ruinSettings 0 5 true true))
      = (Returned true, ruinBelowZero)
   /\ getRuinPoints ruinBelowZero = mkPoints (-3) 5
   /\ ~ 0 <= current (getRuinPoints ruinBelowZero))
  /\ (getRuinPoints (sessionOf gm (ruinSettings 5 5 true true)) = mkPoints 5 5
      /\ removeRuin permissiveHost (-3) noOptions
                    (sessionOf gm (ruinSettings 5 5 true true))
         = (Returned true, ruinAboveMax)
      /\ getRuinPoints ruinAboveMax = mkPoints 8 5
      /\ ~ current (getRuinPoints ruinAboveMax) <= max (getRuinPoints ruinAboveMax))
  /\ (getRuinPoints (sessionOf gm (ruinSettings 7 5 true true)) = mkPoints 7 5
      /\ removeRuin permissiveHost 1 noOptions
                    (sessionOf gm (ruinSettings 7 5 true true))
         = (Returned true, ruinStillAboveMax)
      /\ getRuinPoints ruinStillAboveMax = mkPoints 6 5
      /\ ~ current (getRuinPoints ruinStillAboveMax)
           <= max (getRuinPoints ruinStillAboveMax)).
Proof. vm_compute. repeat split; intros H; by apply H. Qed.

Lemma nonnegative_amount_keeps_bounds_witness :
  0 <= current (getRuinPoints ruinAdded) <= max (getRuinPoints ruinAdded)
  /\ exists fp', getFatePoints fateAdded alice = Some fp'
                 /\ 0 <= current fp' <= max fp'.
Proof.
  split.
  - apply (proj1 (nonnegative_amount_keeps_bounds
                    permissiveHost alice noOptions gmSession ruinAdded
                    (Returned true) 4 ltac:(lia))).
    + vm_compute. split; discriminate.
    + right. left. reflexivity.
  - apply (proj2 (nonnegative_amount_keeps_bounds
                    permissiveHost alice noOptions gmSession fateAdded
                    (Returned true) 4 ltac:(lia)) (mkPoints 3 5)).
    + reflexivity.
    + vm_compute. split; discriminate.
    + right. left. reflexivity.
Defined.

Lemma non_gm_session_is_refused_witness :
  addFate permissiveHost bob 1 aliceSession
  = (Returned false, warned "GMOnly" aliceSession)
  /\ useRuin permissiveHost 1 noOptions aliceSession
     = (Returned false, warned "GMOnly" aliceSession).
Proof.
  pose proof (non_gm_session_is_refused permissiveHost bob noOptions 1
                aliceSession eq_refl) as H.
  cbn zeta in H. split; apply H.
Defined.

Lemma useFate_refusal_leaves_state_witness :
  exists key,
    useFate permissiveHost alice 4 aliceSession
    = (Returned false, warned key aliceSession)
    /\ getFatePoints (warned key aliceSession) alice
       = getFatePoints aliceSession alice.
Proof.
  destruct (useFate_refusal_leaves_state permissiveHost alice 4 aliceSession)
    as (key & H).
  - right. right. exists (mkPoints 3 5). split; [reflexivity|]. cbn. lia.
  - exists key. cbn zeta in H. split; apply H.
Defined.

Lemma allowPlayerUse_off_gates_useFate_witness :
  useFate permissiveHost alice 1 aliceSessionOff
  = (Returned false, warned "CannotUseFate" aliceSessionOff)
  /\ exists w',
       useFate permissiveHost alice 1 gmSessionOff = (Returned true, w')
       /\ getFatePoints w' alice = Some (mkPoints (Z.max 0 (3 - 1)) 5).
Proof.
  split.
  - apply (proj1 (allowPlayerUse_off_gates_useFate
                    permissiveHost alice 1 aliceSessionOff eq_refl eq_refl)).
    reflexivity.
  - apply (proj2 (allowPlayerUse_off_gates_useFate
                    permissiveHost alice 1 gmSessionOff eq_refl eq_refl)
             eq_refl 0%nat (mkPoints 3 5)).
    + reflexivity.
    + reflexivity.
    + cbn. lia.
    + reflexivity.
Defined.

Lemma zero_difference_produces_no_chat_witness :
  exists w',
    actorUpdateInSession permissiveHost aldric (mkChanges (Some 3)) "u-alice"
                         aliceSession
    = (Returned tt, w')
    /\ chatLog w' = chatLog aliceSession
    /\ renders w' = renders aliceSession.
Proof.
  apply (zero_difference_produces_no_chat
           permissiveHost aldric (mkChanges (Some 3)) "u-alice" aliceSession).
  reflexivity.
Defined.

(** C8 as stated fails: with "show chat messages" switched off, a fate
    change from 3 to 2 observed by three sessions produces no chat
    message at all. *)
Lemma chat_disabled_no_message :
  fateValueOf aldricSpent <> oldFateValue aldricSnapshot
  /\ totalChat quietSessions = 0%nat
  /\ totalChat (broadcastUpdate permissiveHost aldricSpent (mkChanges (Some 2))
                  (mkUpdateOptions (Some aldricSnapshot)) "u-gm" quietSessions)
     = 0%nat
  /\ totalChat (broadcastUpdate permissiveHost aldricSpent (mkChanges (Some 2))
                  (mkUpdateOptions (Some aldricSnapshot)) "u-gm" quietSessions)
     <> S (totalChat quietSessions).
Proof. vm_compute. repeat split; discriminate. Qed.

Lemma one_chat_message_per_change_when_enabled_witness :
  totalChat (broadcastUpdate permissiveHost aldricSpent (mkChanges (Some 2))
               (mkUpdateOptions (Some aldricSnapshot)) "u-gm" chattySessions)
  = (totalChat chattySessions + 1)%nat.
Proof.
  apply (one_chat_message_per_change_when_enabled
           permissiveHost aldricSpent (mkChanges (Some 2))
           (mkUpdateOptions (Some aldricSnapshot)) aldricSnapshot "u-gm" true
           chattySessions).
  - reflexivity.
  - reflexivity.
  - vm_compute. discriminate.
  - intros m. reflexivity.
  - refine (bool_decide_unpack _ _). vm_compute. exact I.
  - refine (bool_decide_unpack _ _). vm_compute. exact I.
  - repeat constructor.
Defined.

Lemma useFate_on_gm_user_is_refused_witness :
  useFate permissiveHost gm 1 gmSession
  = (Returned false, warned "CannotUseFate" gmSession).
Proof.
  apply (useFate_on_gm_user_is_refused permissiveHost gm 1 gmSession eq_refl).
Defined.

Lemma exhausted_takes_priority_over_full_witness :
  In "exhausted" (UIHandler.fateContainerClasses gmSession alice (mkPoints 0 0))
  /\ ~ In "full" (UIHandler.fateContainerClasses gmSession alice (mkPoints 0 0)).
Proof.
  apply (exhausted_takes_priority_over_full gmSession alice (mkPoints 0 0)).
  reflexivity.
Defined.

(** * Further properties of the code *)

(** ** What a computation keeps, piece by piece *)

Section Keeps.

Context {B : Type} (f : World -> B).

Lemma keeps_ret {A} (a : A) : keeps f (mret a).
Proof. by intros w c w' [= <- <-]. Qed.

Lemma keeps_bind {A C} (m : Async A) (k : A -> Async C) :
  keeps f m -> (forall a, keeps f (k a)) -> keeps f (m ≫= k).
Proof.
  intros Hm Hk w c w'. unfold mbind, Async_bind.
  destruct (m w) as [[a|] w1] eqn:E; intros H.
  - rewrite <- (Hm _ _ _ E). by apply (Hk a w1 c w').
  - injection H as <- <-. by apply (Hm _ _ _ E).
Qed.

Lemma keeps_tryCatch {A} (body handler : Async A) :
  keeps f body -> keeps f handler -> keeps f (tryCatch body handler).
Proof.
  intros Hb Hh w c w'. unfold tryCatch.
  destruct (body w) as [[a|] w1] eqn:E; intros H.
  - injection H as <- <-. by apply (Hb _ _ _ E).
  - rewrite <- (Hb _ _ _ E). by apply (Hh w1 c w').
Qed.

Lemma keeps_gets {A} (g : World -> A) : keeps f (gets g).
Proof. by intros w c w' [= <- <-]. Qed.

Lemma keeps_getSetting {A} (key : Settings -> A) : keeps f (getSetting key).
Proof. apply keeps_gets. Qed.

Lemma keeps_log level message :
  (forall l w, f (with_console l w) = f w) -> keeps f (log level message).
Proof.
  intros Hf w c w'. destruct (log_state level message w) as [l ->].
  intros [= <- <-]. apply Hf.
Qed.

Lemma keeps_notify key type :
  (forall l w, f (with_notifications l w) = f w) -> keeps f (notify key type).
Proof. intros Hf w c w' [= <- <-]. apply Hf. Qed.

Lemma keeps_setSetting_GM_RUIN h v :
  (forall s w, f (with_settings s w) = f w) -> keeps f (setSetting_GM_RUIN h v).
Proof.
  intros Hf w c w'. unfold setSetting_GM_RUIN.
  destruct (acceptsSettingWrite h v); intros [= <- <-]; [apply Hf | done].
Qed.

Lemma keeps_character_update h r v :
  (forall l w, f (with_actors l w) = f w) -> keeps f (character_update h r v).
Proof.
  intros Hf w c w'. unfold character_update.
  destruct (acceptsActorUpdate h r v); intros [= <- <-]; [apply Hf | done].
Qed.

Lemma keeps_ChatMessage_create h m :
  (forall l w, f (with_chatLog l w) = f w) -> keeps f (ChatMessage_create h m).
Proof.
  intros Hf w c w'. unfold ChatMessage_create.
  destruct (acceptsChatMessage h m); intros [= <- <-]; [apply Hf | done].
Qed.

Lemma keeps__sendRuinChatMessage h action amount newValue maxValue :
  (forall l w, f (with_chatLog l w) = f w) ->
  keeps f (_sendRuinChatMessage h action amount newValue maxValue).
Proof.
  intros Hf. unfold _sendRuinChatMessage.
  repeat (destruct (String.eqb action _));
    first [ by apply keeps_ChatMessage_create | apply keeps_ret ].
Qed.

Lemma keeps_refresh :
  (forall n w, f (with_renders n w) = f w) -> keeps f UIHandler.refresh.
Proof.
  intros Hf w c w'. unfold UIHandler.refresh, modify.
  destruct (players_rendered w); intros [= <- <-]; [apply Hf | done].
Qed.

End Keeps.

(** Takes a goal [keeps f m] apart along the structure of [m]; the side
    conditions on [f] are closed by computation. *)
Ltac keeps_step :=
  lazymatch goal with
  | |- keeps _ (mret _) => apply keeps_ret
  | |- keeps _ (_ ≫= _) => apply keeps_bind; [|intros ?]
  | |- keeps _ (tryCatch _ _) => apply keeps_tryCatch
  | |- keeps _ (gets _) => apply keeps_gets
  | |- keeps _ (getSetting _) => apply keeps_getSetting
  | |- keeps _ (log _ _) => apply keeps_log; reflexivity
  | |- keeps _ (notify _ _) => apply keeps_notify; reflexivity
  | |- keeps _ (setSetting_GM_RUIN _ _) =>
    apply keeps_setSetting_GM_RUIN; reflexivity
  | |- keeps _ (character_update _ _ _) =>
    apply keeps_character_update; reflexivity
  | |- keeps _ (_sendRuinChatMessage _ _ _ _ _) =>
    apply keeps__sendRuinChatMessage; reflexivity
  | |- keeps _ UIHandler.refresh => apply keeps_refresh; reflexivity
  | |- keeps _ (if ?b then _ else _) => destruct b
  | |- keeps _ (match ?o with Some _ => _ | None => _ end) => destruct o
  | |- keeps _ (let _ := _ in _) => cbv zeta
  end.

Ltac keeps_auto := repeat keeps_step.

Section NeverThrows.

Lemma neverThrows_ret {A} (a : A) : neverThrows (mret a).
Proof. intros w. by eexists _, _. Qed.

Lemma neverThrows_bind {A C} (m : Async A) (k : A -> Async C) :
  neverThrows m -> (forall a, neverThrows (k a)) -> neverThrows (m ≫= k).
Proof.
  intros Hm Hk w. destruct (Hm w) as (a & w1 & E).
  destruct (Hk a w1) as (b & w2 & E2).
  exists b, w2. unfold mbind, Async_bind. by rewrite E.
Qed.

Lemma neverThrows_tryCatch {A} (body handler : Async A) :
  neverThrows handler -> neverThrows (tryCatch body handler).
Proof.
  intros Hh w. unfold tryCatch.
  destruct (body w) as [[a|] w1]; [by eexists _, _ | apply Hh].
Qed.

Lemma neverThrows_gets {A} (g : World -> A) : neverThrows (gets g).
Proof. intros w. by eexists _, _. Qed.

Lemma neverThrows_getSetting {A} (key : Settings -> A) :
  neverThrows (getSetting key).
Proof. apply neverThrows_gets. Qed.

Lemma neverThrows_log level message : neverThrows (log level message).
Proof. intros w. destruct (log_state level message w) as [l ->]. by eexists _, _. Qed.

Lemma neverThrows_notify key type : neverThrows (notify key type).
Proof. intros w. by eexists _, _. Qed.

End NeverThrows.

Ltac neverThrows_step :=
  lazymatch goal with
  | |- neverThrows (mret _) => apply neverThrows_ret
  | |- neverThrows (_ ≫= _) => apply neverThrows_bind; [|intros ?]
  | |- neverThrows (tryCatch _ _) => apply neverThrows_tryCatch
  | |- neverThrows (gets _) => apply neverThrows_gets
  | |- neverThrows (getSetting _) => apply neverThrows_getSetting
  | |- neverThrows (log _ _) => apply neverThrows_log
  | |- neverThrows (notify _ _) => apply neverThrows_notify
  | |- neverThrows (if ?b then _ else _) => destruct b
  | |- neverThrows (match ?o with Some _ => _ | None => _ end) => destruct o
  | |- neverThrows (let _ := _ in _) => cbv zeta
  end.

Ltac neverThrows_auto := repeat neverThrows_step.

(** X1: the operations fail soft: called with an options object, the
    Ruin operations never throw, whatever the host refuses, and neither
    do [addFate] and [removeFate], not even for a null user, nor
    [useFate] for a user object; each completes with a boolean.  The one
    call that throws is [useFate] with a null or undefined user, which
    reads [user.isGM] before its try block. *)
Theorem operations_never_throw (h : Host) (amount : Z) (opts : Options) :
  neverThrows (useRuin h amount opts)
  /\ neverThrows (addRuin h amount opts)
  /\ neverThrows (removeRuin h amount opts)
  /\ (forall user : option User, neverThrows (addFate_nullable h user amount))
  /\ (forall user : option User, neverThrows (removeFate_nullable h user amount))
  /\ (forall user : User, neverThrows (useFate_nullable h (Some user) amount))
  /\ (forall w, useFate_nullable h None amount w = (Thrown, w)).
Proof.
  unfold useRuin, addRuin, removeRuin.
  repeat apply conj; try (by neverThrows_auto).
  - intros [user|]; cbn.
    + unfold addFate. neverThrows_auto.
    + apply neverThrows_bind; [neverThrows_auto|]. intros gameUser.
      destruct (negb (isGM gameUser)); [neverThrows_auto|].
      intros w. by eexists _, _.
  - intros [user|]; cbn.
    + unfold removeFate. neverThrows_auto.
    + apply neverThrows_bind; [neverThrows_auto|]. intros gameUser.
      destruct (negb (isGM gameUser)); [neverThrows_auto|].
      intros w. by eexists _, _.
  - intros user. cbn. unfold useFate. neverThrows_auto.
Qed.

(** ** The write step of the operations, run to its end *)

(** The try block of a Ruin operation and its catch, in every case the
    host can produce.  Only what the console holds is left open. *)
Lemma ruin_write_run h v infoMsg errMsg (chat : bool) action key amount mx w :
  _sendRuinChatMessage h action amount v mx
  = ChatMessage_create h (ruinMessage key amount v mx) ->
  exists l1 l2,
    tryCatch
      (setSetting_GM_RUIN h v;;
       log "info" infoMsg;;
       (if chat then _sendRuinChatMessage h action amount v mx else mret tt);;
       mret true)
      (log "error" errMsg;; notify "UpdateFailed" NError;; mret false) w
    = if acceptsSettingWrite h v then
        let w1 := with_console l1 (ruinWritten v w) in
        if chat then
          if acceptsChatMessage h (ruinMessage key amount v mx)
          then (Returned true, chatCreated (ruinMessage key amount v mx) w1)
          else (Returned false, failureReported (with_console l2 w1))
        else (Returned true, w1)
      else (Returned false, failureReported (with_console l2 w)).
Proof.
  intros Hmsg. run_async. unfold setSetting_GM_RUIN.
  destruct (acceptsSettingWrite h v).
  - fold (ruinWritten v w).
    destruct (log_state "info" infoMsg (ruinWritten v w)) as [l1 E1].
    rewrite E1. destruct chat.
    + rewrite Hmsg. unfold ChatMessage_create.
      destruct (acceptsChatMessage h _).
      * by exists l1, [].
      * destruct (log_state "error" errMsg (with_console l1 (ruinWritten v w)))
          as [l2 E2].
        rewrite E2. by exists l1, l2.
    + by exists l1, [].
  - destruct (log_state "error" errMsg w) as [l2 E2]. rewrite E2.
    by exists [], l2.
Qed.

(** The try block of a Fate operation and its catch. *)
Lemma fate_write_run h r v infoMsg errMsg w :
  exists l,
    tryCatch
      (character_update h r v;; log "info" infoMsg;; mret true)
      (log "error" errMsg;; notify "UpdateFailed" NError;; mret false) w
    = if acceptsActorUpdate h r v
      then (Returned true, with_console l (fateWritten r v w))
      else (Returned false, failureReported (with_console l w)).
Proof.
  run_async. unfold character_update.
  destruct (acceptsActorUpdate h r v).
  - fold (fateWritten r v w).
    destruct (log_state "info" infoMsg (fateWritten r v w)) as [l E].
    rewrite E. by exists l.
  - destruct (log_state "error" errMsg w) as [l E]. rewrite E. by exists l.
Qed.

(** The six operations past their checks are their write step. *)
Lemma useRuin_run h amount opts w :
  isGM (game_user w) = true ->
  amount <= current (getRuinPoints w) ->
  let v := Z.max 0 (current (getRuinPoints w) - amount) in
  let chat := default (showChatMessages (game_settings w)) (chatMessage opts) in
  exists l1 l2,
    useRuin h amount opts w
    = if acceptsSettingWrite h v then
        let w1 := with_console l1 (ruinWritten v w) in
        let m := ruinMessage "Chat.UsedRuin" amount v (max (getRuinPoints w)) in
        if chat then
          if acceptsChatMessage h m
          then (Returned true, chatCreated m w1)
          else (Returned false, failureReported (with_console l2 w1))
        else (Returned true, w1)
      else (Returned false, failureReported (with_console l2 w)).
Proof.
  intros Hgm Hle v chat.
  destruct (ruin_write_run h v "Ruin point used" "Failed to use Ruin point"
              chat "used" "Chat.UsedRuin" amount (max (getRuinPoints w)) w eq_refl)
    as (l1 & l2 & E).
  exists l1, l2. cbv zeta in E |- *. rewrite <- E. unfold useRuin. run_async. rewrite Hgm. cbn.
  by apply Z.ltb_ge in Hle as ->.
Qed.

Lemma addRuin_run h amount opts w :
  isGM (game_user w) = true ->
  let v := Z.min (max (getRuinPoints w)) (current (getRuinPoints w) + amount) in
  let chat := default (showChatMessages (game_settings w)) (chatMessage opts) in
  exists l1 l2,
    addRuin h amount opts w
    = if acceptsSettingWrite h v then
        let w1 := with_console l1 (ruinWritten v w) in
        let m := ruinMessage "Chat.AddedRuin" amount v (max (getRuinPoints w)) in
        if chat then
          if acceptsChatMessage h m
          then (Returned true, chatCreated m w1)
          else (Returned false, failureReported (with_console l2 w1))
        else (Returned true, w1)
      else (Returned false, failureReported (with_console l2 w)).
Proof.
  intros Hgm v chat.
  destruct (ruin_write_run h v "Ruin point added" "Failed to add Ruin point"
              chat "added" "Chat.AddedRuin" amount (max (getRuinPoints w)) w eq_refl)
    as (l1 & l2 & E).
  exists l1, l2. cbv zeta in E |- *. rewrite <- E. unfold addRuin. run_async. by rewrite Hgm.
Qed.

Lemma removeRuin_run h amount opts w :
  isGM (game_user w) = true ->
  let v := Z.max 0 (current (getRuinPoints w) - amount) in
  let chat := default (showChatMessages (game_settings w)) (chatMessage opts) in
  exists l1 l2,
    removeRuin h amount opts w
    = if acceptsSettingWrite h v then
        let w1 := with_console l1 (ruinWritten v w) in
        let m := ruinMessage "Chat.RemovedRuin" amount v (max (getRuinPoints w)) in
        if chat then
          if acceptsChatMessage h m
          then (Returned true, chatCreated m w1)
          else (Returned false, failureReported (with_console l2 w1))
        else (Returned true, w1)
      else (Returned false, failureReported (with_console l2 w)).
Proof.
  intros Hgm v chat.
  destruct (ruin_write_run h v "Ruin point removed" "Failed to remove Ruin point"
              chat "removed" "Chat.RemovedRuin" amount (max (getRuinPoints w)) w
              eq_refl)
    as (l1 & l2 & E).
  exists l1, l2. cbv zeta in E |- *. rewrite <- E. unfold removeRuin. run_async. by rewrite Hgm.
Qed.

Lemma useFate_run h user amount r fp w :
  _canUseFate w user = true ->
  getPlayerCharacter w (Some user) = Some r ->
  getFatePoints w user = Some fp ->
  amount <= current fp ->
  let v := Z.max 0 (current fp - amount) in
  exists l,
    useFate h user amount w
    = if acceptsActorUpdate h r v
      then (Returned true, with_console l (fateWritten r v w))
      else (Returned false, failureReported (with_console l w)).
Proof.
  intros Hcan Hr Hfp Hle v.
  destruct (fate_write_run h r v "Fate point used" "Failed to use fate point" w)
    as (l & E).
  exists l. rewrite <- E. unfold useFate. run_async.
  rewrite Hcan. cbn. rewrite Hr. cbn. rewrite Hfp. cbn.
  by apply Z.ltb_ge in Hle as ->.
Qed.

Lemma addFate_run h user amount r fp w :
  isGM (game_user w) = true ->
  getPlayerCharacter w (Some user) = Some r ->
  getFatePoints w user = Some fp ->
  let v := Z.min (max fp) (current fp + amount) in
  exists l,
    addFate h user amount w
    = if acceptsActorUpdate h r v
      then (Returned true, with_console l (fateWritten r v w))
      else (Returned false, failureReported (with_console l w)).
Proof.
  intros Hgm Hr Hfp v.
  destruct (fate_write_run h r v "Fate point added" "Failed to add fate point" w)
    as (l & E).
  exists l. rewrite <- E. unfold addFate. run_async.
  rewrite Hgm. cbn. rewrite Hr. cbn. by rewrite Hfp.
Qed.

Lemma removeFate_run h user amount r fp w :
  isGM (game_user w) = true ->
  getPlayerCharacter w (Some user) = Some r ->
  getFatePoints w user = Some fp ->
  let v := Z.max 0 (current fp - amount) in
  exists l,
    removeFate h user amount w
    = if acceptsActorUpdate h r v
      then (Returned true, with_console l (fateWritten r v w))
      else (Returned false, failureReported (with_console l w)).
Proof.
  intros Hgm Hr Hfp v.
  destruct (fate_write_run h r v "Fate point removed" "Failed to remove fate point" w)
    as (l & E).
  exists l. rewrite <- E. unfold removeFate. run_async.
  rewrite Hgm. cbn. rewrite Hr. cbn. by rewrite Hfp.
Qed.

(** ** Each operation touches only its own resource *)

(** X2: however they end, the Fate operations never change the
    settings, so never the Ruin pool, and the Ruin operations never
    change an actor, so never a character's fate; none changes who the
    session's user is. *)
Theorem operations_touch_only_their_resource
    (h : Host) (user : User) (amount : Z) (opts : Options) :
  let fateFrame := fun w => (game_settings w, game_user w) in
  let ruinFrame := fun w => (game_actors w, game_user w) in
  keeps fateFrame (useFate h user amount)
  /\ keeps fateFrame (addFate h user amount)
  /\ keeps fateFrame (removeFate h user amount)
  /\ keeps ruinFrame (useRuin h amount opts)
  /\ keeps ruinFrame (addRuin h amount opts)
  /\ keeps ruinFrame (removeRuin h amount opts).
Proof.
  intros fateFrame ruinFrame.
  unfold useRuin, addRuin, removeRuin, useFate, addFate, removeFate.
  repeat split; keeps_auto.
Qed.

(** ** Refusals of the GM-only Fate operations *)

Lemma addFate_no_character h w user amount :
  isGM (game_user w) = true ->
  getPlayerCharacter w (Some user) = None ->
  addFate h user amount w = (Returned false, warned "NoCharacter" w).
Proof.
  intros E1 E2. unfold addFate. run_async. rewrite E1. cbn. by rewrite E2.
Qed.

Lemma removeFate_no_character h w user amount :
  isGM (game_user w) = true ->
  getPlayerCharacter w (Some user) = None ->
  removeFate h user amount w = (Returned false, warned "NoCharacter" w).
Proof.
  intros E1 E2. unfold removeFate. run_async. rewrite E1. cbn. by rewrite E2.
Qed.

Lemma addFate_no_fate_data h w user amount r :
  isGM (game_user w) = true ->
  getPlayerCharacter w (Some user) = Some r ->
  getFatePoints w user = None ->
  addFate h user amount w = (Returned false, warned "NoFateData" w).
Proof.
  intros E1 E2 E3. unfold addFate. run_async.
  rewrite E1. cbn. rewrite E2. cbn. by rewrite E3.
Qed.

Lemma removeFate_no_fate_data h w user amount r :
  isGM (game_user w) = true ->
  getPlayerCharacter w (Some user) = Some r ->
  getFatePoints w user = None ->
  removeFate h user amount w = (Returned false, warned "NoFateData" w).
Proof.
  intros E1 E2 E3. unfold removeFate. run_async.
  rewrite E1. cbn. rewrite E2. cbn. by rewrite E3.
Qed.

Lemma useFate_no_fate_data h w user amount r :
  _canUseFate w user = true ->
  getPlayerCharacter w (Some user) = Some r ->
  getFatePoints w user = None ->
  useFate h user amount w = (Returned false, warned "InsufficientFate" w).
Proof.
  intros E1 E2 E3. unfold useFate. run_async.
  rewrite E1. cbn. rewrite E2. cbn. by rewrite E3.
Qed.

Lemma getPlayerCharacter_gm w user :
  isGM user = true -> getPlayerCharacter w (Some user) = None.
Proof. intros E. unfold getPlayerCharacter. by rewrite E. Qed.

(** X4: in a GM's session [addFate] and [removeFate] on a user for whom no
    character resolves, a GM user among them, return [false] with the
    ["NoCharacter"] warning; on a character without fate data they
    return [false] with ["NoFateData"].  Nothing else changes. *)
Theorem gm_fate_operations_need_a_character_with_fate
    (h : Host) (user : User) (amount : Z) (w : World) :
  isGM (game_user w) = true ->
  (getPlayerCharacter w (Some user) = None ->
   addFate h user amount w = (Returned false, warned "NoCharacter" w)
   /\ removeFate h user amount w = (Returned false, warned "NoCharacter" w))
  /\ (isGM user = true -> getPlayerCharacter w (Some user) = None)
  /\ (forall r, getPlayerCharacter w (Some user) = Some r ->
      getFatePoints w user = None ->
      addFate h user amount w = (Returned false, warned "NoFateData" w)
      /\ removeFate h user amount w = (Returned false, warned "NoFateData" w)).
Proof.
  intros Hgm. repeat split.
  - by apply addFate_no_character.
  - by apply removeFate_no_character.
  - apply getPlayerCharacter_gm.
  - by apply (addFate_no_fate_data h w user amount r).
  - by apply (removeFate_no_fate_data h w user amount r).
Qed.

(** ** All or nothing for the Fate operations *)

(** What a Fate operation has done to the actors when it completes:
    nothing with [false], one fate value stored with [true]. *)
Lemma fate_run_cases (h : Host) r v w (c : Completion bool) w' :
  (exists l,
     (c, w') = if acceptsActorUpdate h r v
               then (Returned true, with_console l (fateWritten r v w))
               else (Returned false, failureReported (with_console l w))) ->
  (c = Returned false /\ game_actors w' = game_actors w)
  \/ (c = Returned true
      /\ game_actors w' = alter (set_fate_value v) r (game_actors w)).
Proof.
  intros [l E]. destruct (acceptsActorUpdate h r v); injection E as -> ->; auto.
Qed.

Lemma useFate_cases h user amount w c w' :
  useFate h user amount w = (c, w') ->
  (c = Returned false /\ game_actors w' = game_actors w)
  \/ (c = Returned true
      /\ exists r fp,
           getPlayerCharacter w (Some user) = Some r
           /\ getFatePoints w user = Some fp
           /\ game_actors w'
              = alter (set_fate_value (Z.max 0 (current fp - amount))) r
                      (game_actors w)).
Proof.
  intros H.
  destruct (_canUseFate w user) eqn:Hcan.
  2:{ rewrite useFate_unauthorized in H by done. injection H as <- <-. by left. }
  destruct (getPlayerCharacter w (Some user)) as [r|] eqn:Hr.
  2:{ rewrite useFate_no_character in H by done. injection H as <- <-. by left. }
  destruct (getFatePoints w user) as [fp|] eqn:Hfp.
  2:{ rewrite (useFate_no_fate_data h w user amount r) in H by done.
      injection H as <- <-. by left. }
  destruct (Z.lt_ge_cases (current fp) amount) as [Hlt|Hge].
  { rewrite (useFate_insufficient h w user amount r fp) in H by done.
    injection H as <- <-. by left. }
  destruct (useFate_run h user amount r fp w Hcan Hr Hfp Hge) as [l E].
  cbv zeta in E. rewrite H in E.
  destruct (fate_run_cases h r _ w c w' (ex_intro _ l E)) as [?|[? ?]]; [by left|].
  right. split; [done|]. by exists r, fp.
Qed.

Lemma addFate_cases h user amount w c w' :
  addFate h user amount w = (c, w') ->
  (c = Returned false /\ game_actors w' = game_actors w)
  \/ (c = Returned true
      /\ exists r fp,
           getPlayerCharacter w (Some user) = Some r
           /\ getFatePoints w user = Some fp
           /\ game_actors w'
              = alter (set_fate_value (Z.min (max fp) (current fp + amount))) r
                      (game_actors w)).
Proof.
  intros H.
  destruct (isGM (game_user w)) eqn:Hgm.
  2:{ rewrite addFate_non_gm in H by done. injection H as <- <-. by left. }
  destruct (getPlayerCharacter w (Some user)) as [r|] eqn:Hr.
  2:{ rewrite addFate_no_character in H by done. injection H as <- <-. by left. }
  destruct (getFatePoints w user) as [fp|] eqn:Hfp.
  2:{ rewrite (addFate_no_fate_data h w user amount r) in H by done.
      injection H as <- <-. by left. }
  destruct (addFate_run h user amount r fp w Hgm Hr Hfp) as [l E].
  cbv zeta in E. rewrite H in E.
  destruct (fate_run_cases h r _ w c w' (ex_intro _ l E)) as [?|[? ?]]; [by left|].
  right. split; [done|]. by exists r, fp.
Qed.

Lemma removeFate_cases h user amount w c w' :
  removeFate h user amount w = (c, w') ->
  (c = Returned false /\ game_actors w' = game_actors w)
  \/ (c = Returned true
      /\ exists r fp,
           getPlayerCharacter w (Some user) = Some r
           /\ getFatePoints w user = Some fp
           /\ game_actors w'
              = alter (set_fate_value (Z.max 0 (current fp - amount))) r
                      (game_actors w)).
Proof.
  intros H.
  destruct (isGM (game_user w)) eqn:Hgm.
  2:{ rewrite removeFate_non_gm in H by done. injection H as <- <-. by left. }
  destruct (getPlayerCharacter w (Some user)) as [r|] eqn:Hr.
  2:{ rewrite removeFate_no_character in H by done. injection H as <- <-. by left. }
  destruct (getFatePoints w user) as [fp|] eqn:Hfp.
  2:{ rewrite (removeFate_no_fate_data h w user amount r) in H by done.
      injection H as <- <-. by left. }
  destruct (removeFate_run h user amount r fp w Hgm Hr Hfp) as [l E].
  cbv zeta in E. rewrite H in E.
  destruct (fate_run_cases h r _ w c w' (ex_intro _ l E)) as [?|[? ?]]; [by left|].
  right. split; [done|]. by exists r, fp.
Qed.

(** X3: a Fate operation is all or nothing: when it returns [false] no actor
    has changed; when it returns [true] the character resolved for the
    user had its fate value replaced and every other actor is as before. *)
Theorem fate_operation_all_or_nothing
    (h : Host) (user : User) (amount : Z) (w w' : World) (b : bool) :
  useFate h user amount w = (Returned b, w')
  \/ addFate h user amount w = (Returned b, w')
  \/ removeFate h user amount w = (Returned b, w') ->
  if b then
    exists r v,
      getPlayerCharacter w (Some user) = Some r
      /\ game_actors w' !! r = set_fate_value v <$> game_actors w !! r
      /\ (forall i, i <> r -> game_actors w' !! i = game_actors w !! i)
      /\ length (game_actors w') = length (game_actors w)
  else game_actors w' = game_actors w.
Proof.
  intros Hcall.
  assert ((Returned b = Returned false /\ game_actors w' = game_actors w)
          \/ (Returned b = Returned true
              /\ exists r v, getPlayerCharacter w (Some user) = Some r
                 /\ game_actors w' = alter (set_fate_value v) r (game_actors w)))
    as [[[= ->] Ha]|[[= ->] (r & v & Hr & Ha)]].
  { destruct Hcall as [H|[H|H]].
    - apply useFate_cases in H as [?|(? & r & fp & ? & ? & ?)]; [by left|].
      right. split; [done|]. by eexists r, _.
    - apply addFate_cases in H as [?|(? & r & fp & ? & ? & ?)]; [by left|].
      right. split; [done|]. by eexists r, _.
    - apply removeFate_cases in H as [?|(? & r & fp & ? & ? & ?)]; [by left|].
      right. split; [done|]. by eexists r, _. }
  - done.
  - exists r, v. rewrite Ha. repeat split.
    + done.
    + rewrite list_lookup_alter. by case_decide.
    + intros i Hi. by apply list_lookup_alter_ne.
    + apply length_alter.
Qed.

(** ** When the host refuses *)

Lemma getFatePoints_Some_character w user fp :
  getFatePoints w user = Some fp ->
  isGM user = false /\ exists r, getPlayerCharacter w (Some user) = Some r.
Proof.
  unfold getFatePoints. destruct (isGM user); [done|].
  destruct (getPlayerCharacter w (Some user)) as [r|]; [|done].
  intros _. split; [done|]. by exists r.
Qed.

Lemma ruin_run_refused (h : Host) v (chat : bool) m w (c : Completion bool) w' :
  acceptsSettingWrite h v = false ->
  (exists l1 l2,
     (c, w') = if acceptsSettingWrite h v then
                 let w1 := with_console l1 (ruinWritten v w) in
                 if chat then
                   if acceptsChatMessage h m
                   then (Returned true, chatCreated m w1)
                   else (Returned false, failureReported (with_console l2 w1))
                 else (Returned true, w1)
               else (Returned false, failureReported (with_console l2 w))) ->
  c = Returned false /\ reportsFailure w w'.
Proof. intros -> (l1 & l2 & [= -> ->]). by repeat split. Qed.

Lemma fate_run_refused (h : Host) r v w (c : Completion bool) w' :
  acceptsActorUpdate h r v = false ->
  (exists l,
     (c, w') = if acceptsActorUpdate h r v
               then (Returned true, with_console l (fateWritten r v w))
               else (Returned false, failureReported (with_console l w))) ->
  c = Returned false /\ reportsFailure w w'.
Proof. intros -> (l & [= -> ->]). by repeat split. Qed.

(** X5: a write the host refuses is reported and nothing is stored: an
    operation that got past its checks then returns [false], shows the
    error ["UpdateFailed"], and leaves settings, actors and chat log as
    they were. *)
Theorem refused_write_reports_failure
    (h : Host) (user : User) (amount : Z) (opts : Options) (w : World) :
  (isGM (game_user w) = true ->
   (forall v, acceptsSettingWrite h v = false) ->
   (amount <= current (getRuinPoints w) ->
    exists w', useRuin h amount opts w = (Returned false, w')
               /\ reportsFailure w w')
   /\ (exists w', addRuin h amount opts w = (Returned false, w')
                  /\ reportsFailure w w')
   /\ (exists w', removeRuin h amount opts w = (Returned false, w')
                  /\ reportsFailure w w'))
  /\ (forall fp,
      getFatePoints w user = Some fp ->
      (forall r v, acceptsActorUpdate h r v = false) ->
      (_canUseFate w user = true -> amount <= current fp ->
       exists w', useFate h user amount w = (Returned false, w')
                  /\ reportsFailure w w')
      /\ (isGM (game_user w) = true ->
          (exists w', addFate h user amount w = (Returned false, w')
                      /\ reportsFailure w w')
          /\ (exists w', removeFate h user amount w = (Returned false, w')
                         /\ reportsFailure w w'))).
Proof.
  split.
  - intros Hgm Hno. repeat split.
    + intros Hle.
      destruct (useRuin_run h amount opts w Hgm Hle) as (l1 & l2 & E).
      destruct (useRuin h amount opts w) as [c w'].
      destruct (ruin_run_refused h _ _ _ w c w' (Hno _)
                  (ex_intro _ l1 (ex_intro _ l2 E))) as [-> ?].
      by exists w'.
    + destruct (addRuin_run h amount opts w Hgm) as (l1 & l2 & E).
      destruct (addRuin h amount opts w) as [c w'].
      destruct (ruin_run_refused h _ _ _ w c w' (Hno _)
                  (ex_intro _ l1 (ex_intro _ l2 E))) as [-> ?].
      by exists w'.
    + destruct (removeRuin_run h amount opts w Hgm) as (l1 & l2 & E).
      destruct (removeRuin h amount opts w) as [c w'].
      destruct (ruin_run_refused h _ _ _ w c w' (Hno _)
                  (ex_intro _ l1 (ex_intro _ l2 E))) as [-> ?].
      by exists w'.
  - intros fp Hfp Hno.
    destruct (getFatePoints_Some_character w user fp Hfp) as [_ [r Hr]].
    repeat split.
    + intros Hcan Hle.
      destruct (useFate_run h user amount r fp w Hcan Hr Hfp Hle) as (l & E).
      destruct (useFate h user amount w) as [c w'].
      destruct (fate_run_refused h r _ w c w' (Hno _ _) (ex_intro _ l E))
        as [-> ?].
      by exists w'.
    + destruct (addFate_run h user amount r fp w H Hr Hfp) as (l & E).
      destruct (addFate h user amount w) as [c w'].
      destruct (fate_run_refused h r _ w c w' (Hno _ _) (ex_intro _ l E))
        as [-> ?].
      by exists w'.
    + destruct (removeFate_run h user amount r fp w H Hr Hfp) as (l & E).
      destruct (removeFate h user amount w) as [c w'].
      destruct (fate_run_refused h r _ w c w' (Hno _ _) (ex_intro _ l E))
        as [-> ?].
      by exists w'.
Qed.

Lemma ruin_run_chat_refused (h : Host) v m w (c : Completion bool) w' :
  acceptsSettingWrite h v = true ->
  acceptsChatMessage h m = false ->
  (exists l1 l2,
     (c, w') = if acceptsSettingWrite h v then
                 let w1 := with_console l1 (ruinWritten v w) in
                 if true then
                   if acceptsChatMessage h m
                   then (Returned true, chatCreated m w1)
                   else (Returned false, failureReported (with_console l2 w1))
                 else (Returned true, w1)
               else (Returned false, failureReported (with_console l2 w))) ->
  c = Returned false
  /\ getRuinPoints w' = mkPoints v (max (getRuinPoints w))
  /\ notifications w'
     = (notifications w ++ [mkNotification "UpdateFailed" NError])%list
  /\ chatLog w' = chatLog w.
Proof. intros -> -> (l1 & l2 & [= -> ->]). by repeat split. Qed.

(** X6: when the host stores the Ruin value but refuses the chat message, a
    Ruin operation that was to send one returns [false] and shows
    ["UpdateFailed"] although the new value has been written. *)
Theorem refused_chat_message_fails_after_ruin_write
    (h : Host) (amount : Z) (opts : Options) (w : World) :
  isGM (game_user w) = true ->
  (forall v, acceptsSettingWrite h v = true) ->
  (forall m, acceptsChatMessage h m = false) ->
  default (showChatMessages (game_settings w)) (chatMessage opts) = true ->
  let cur := current (getRuinPoints w) in
  let mx := max (getRuinPoints w) in
  let failedWith (v : Z) (w' : World) :=
    getRuinPoints w' = mkPoints v mx
    /\ notifications w'
       = (notifications w ++ [mkNotification "UpdateFailed" NError])%list
    /\ chatLog w' = chatLog w in
  (amount <= cur ->
   exists w', useRuin h amount opts w = (Returned false, w')
              /\ failedWith (Z.max 0 (cur - amount)) w')
  /\ (exists w', addRuin h amount opts w = (Returned false, w')
                 /\ failedWith (Z.min mx (cur + amount)) w')
  /\ (exists w', removeRuin h amount opts w = (Returned false, w')
                 /\ failedWith (Z.max 0 (cur - amount)) w').
Proof.
  intros Hgm Hset Hchat Hflag cur mx failedWith. repeat split.
  - intros Hle.
    destruct (useRuin_run h amount opts w Hgm Hle) as (l1 & l2 & E).
    cbv zeta in E. rewrite Hflag in E.
    destruct (useRuin h amount opts w) as [c w'].
    destruct (ruin_run_chat_refused h _ _ w c w' (Hset _) (Hchat _)
                (ex_intro _ l1 (ex_intro _ l2 E))) as [-> ?].
    by exists w'.
  - destruct (addRuin_run h amount opts w Hgm) as (l1 & l2 & E).
    cbv zeta in E. rewrite Hflag in E.
    destruct (addRuin h amount opts w) as [c w'].
    destruct (ruin_run_chat_refused h _ _ w c w' (Hset _) (Hchat _)
                (ex_intro _ l1 (ex_intro _ l2 E))) as [-> ?].
    by exists w'.
  - destruct (removeRuin_run h amount opts w Hgm) as (l1 & l2 & E).
    cbv zeta in E. rewrite Hflag in E.
    destruct (removeRuin h amount opts w) as [c w'].
    destruct (ruin_run_chat_refused h _ _ w c w' (Hset _) (Hchat _)
                (ex_intro _ l1 (ex_intro _ l2 E))) as [-> ?].
    by exists w'.
Qed.

(** ** When the host accepts *)

Lemma ruin_run_accepted (h : Host) v (chat : bool) m w (c : Completion bool) w' :
  acceptsRuinWrites h ->
  (exists l1 l2,
     (c, w') = if acceptsSettingWrite h v then
                 let w1 := with_console l1 (ruinWritten v w) in
                 if chat then
                   if acceptsChatMessage h m
                   then (Returned true, chatCreated m w1)
                   else (Returned false, failureReported (with_console l2 w1))
                 else (Returned true, w1)
               else (Returned false, failureReported (with_console l2 w))) ->
  c = Returned true
  /\ getRuinPoints w' = mkPoints v (max (getRuinPoints w))
  /\ chatLog w' = (chatLog w ++ (if chat then [m] else []))%list
  /\ notifications w' = notifications w
  /\ game_user w' = game_user w.
Proof.
  intros [Hset Hchat] (l1 & l2 & E). rewrite Hset in E. cbv zeta in E.
  destruct chat.
  - rewrite Hchat in E. injection E as -> ->. by repeat split.
  - injection E as -> ->. repeat split; try done. cbn. by rewrite app_nil_r.
Qed.

(** X7: with a host that accepts the writes, a Ruin operation in a GM's
    session returns [true], stores the new value and adds exactly one
    chat message, carrying the amount, the new value and the maximum,
    when its [chatMessage] option says so or, without the option, when
    the "show chat messages" setting is on; otherwise it adds none.  No
    notification is shown. *)
Theorem ruin_success_sends_the_chat_message_asked_for
    (h : Host) (amount : Z) (opts : Options) (w : World) :
  isGM (game_user w) = true ->
  acceptsRuinWrites h ->
  let cur := current (getRuinPoints w) in
  let mx := max (getRuinPoints w) in
  let chat := default (showChatMessages (game_settings w)) (chatMessage opts) in
  let doneWith (key : string) (v : Z) (w' : World) :=
    getRuinPoints w' = mkPoints v mx
    /\ chatLog w'
       = (chatLog w ++ (if chat then [ruinMessage key amount v mx] else []))%list
    /\ notifications w' = notifications w in
  (amount <= cur ->
   exists w', useRuin h amount opts w = (Returned true, w')
              /\ doneWith "Chat.UsedRuin" (Z.max 0 (cur - amount)) w')
  /\ (exists w', addRuin h amount opts w = (Returned true, w')
                 /\ doneWith "Chat.AddedRuin" (Z.min mx (cur + amount)) w')
  /\ (exists w', removeRuin h amount opts w = (Returned true, w')
                 /\ doneWith "Chat.RemovedRuin" (Z.max 0 (cur - amount)) w').
Proof.
  intros Hgm Hacc cur mx chat doneWith. repeat split.
  - intros Hle.
    destruct (useRuin_run h amount opts w Hgm Hle) as (l1 & l2 & E).
    cbv zeta in E. destruct (useRuin h amount opts w) as [c w'].
    destruct (ruin_run_accepted h _ _ _ w c w' Hacc
                (ex_intro _ l1 (ex_intro _ l2 E))) as (-> & ? & ? & ? & _).
    by exists w'.
  - destruct (addRuin_run h amount opts w Hgm) as (l1 & l2 & E).
    cbv zeta in E. destruct (addRuin h amount opts w) as [c w'].
    destruct (ruin_run_accepted h _ _ _ w c w' Hacc
                (ex_intro _ l1 (ex_intro _ l2 E))) as (-> & ? & ? & ? & _).
    by exists w'.
  - destruct (removeRuin_run h amount opts w Hgm) as (l1 & l2 & E).
    cbv zeta in E. destruct (removeRuin h amount opts w) as [c w'].
    destruct (ruin_run_accepted h _ _ _ w c w' Hacc
                (ex_intro _ l1 (ex_intro _ l2 E))) as (-> & ? & ? & ? & _).
    by exists w'.
Qed.

(** ** Using against removing *)

(** X8: a use never saturates: [useRuin] and [useFate] return [true] only
    with [amount <= current], and what they store is then exactly
    [current - amount]. *)
Theorem successful_use_subtracts_exactly
    (h : Host) (user : User) (amount : Z) (opts : Options) (w w' : World) :
  (useRuin h amount opts w = (Returned true, w') ->
   amount <= current (getRuinPoints w)
   /\ getRuinPoints w'
      = mkPoints (current (getRuinPoints w) - amount) (max (getRuinPoints w)))
  /\ (useFate h user amount w = (Returned true, w') ->
      exists fp,
        getFatePoints w user = Some fp
        /\ amount <= current fp
        /\ getFatePoints w' user = Some (mkPoints (current fp - amount) (max fp))).
Proof.
  split.
  - intros H. apply useRuin_outcome in H as [Ho Hc].
    destruct (Hc eq_refl) as [_ Hle]. split; [done|].
    apply ruinOutcome_true in Ho. rewrite Ho. f_equal. lia.
  - intros H.
    destruct (getFatePoints w user) as [fp|] eqn:Hfp.
    + exists fp.
      destruct (useFate_outcome h user amount fp w (Returned true) w' Hfp H)
        as [Ho Hc].
      destruct (Hc eq_refl) as [_ Hle]. repeat split; try done.
      rewrite (fateOutcome_true _ _ _ _ _ Hfp Ho). do 2 f_equal. lia.
    + apply useFate_cases in H as [[[=] _]|(_ & r & fp & _ & Hfp' & _)].
      by rewrite Hfp in Hfp'.
Qed.

Lemma useRuin_insufficient h w amount opts :
  isGM (game_user w) = true ->
  current (getRuinPoints w) < amount ->
  useRuin h amount opts w = (Returned false, warned "InsufficientRuin" w).
Proof.
  intros Hgm Hlt. unfold useRuin. run_async. rewrite Hgm. cbn.
  by apply Z.ltb_lt in Hlt as ->.
Qed.

(** X9: asked for more than there is, [useRuin] in a GM's session refuses:
    it returns [false], shows the ["InsufficientRuin"] warning and leaves
    Ruin, actors and chat log as they were. *)
Theorem useRuin_refuses_more_than_current
    (h : Host) (amount : Z) (opts : Options) (w : World) :
  isGM (game_user w) = true ->
  current (getRuinPoints w) < amount ->
  let w' := warned "InsufficientRuin" w in
  useRuin h amount opts w = (Returned false, w')
  /\ notifications w'
     = (notifications w ++ [mkNotification "InsufficientRuin" NWarn])%list
  /\ getRuinPoints w' = getRuinPoints w
  /\ game_actors w' = game_actors w
  /\ chatLog w' = chatLog w.
Proof.
  intros Hgm Hlt w'. repeat split. by apply useRuin_insufficient.
Qed.

Lemma fate_run_accepted (h : Host) user r fp v w (c : Completion bool) w' :
  acceptsFateWrites h ->
  getPlayerCharacter w (Some user) = Some r ->
  getFatePoints w user = Some fp ->
  (exists l,
     (c, w') = if acceptsActorUpdate h r v
               then (Returned true, with_console l (fateWritten r v w))
               else (Returned false, failureReported (with_console l w))) ->
  c = Returned true
  /\ getFatePoints w' user = Some (mkPoints v (max fp))
  /\ getPlayerCharacter w' (Some user) = Some r
  /\ game_user w' = game_user w
  /\ game_settings w' = game_settings w
  /\ notifications w' = notifications w
  /\ chatLog w' = chatLog w.
Proof.
  intros Hacc Hr Hfp (l & E). rewrite Hacc in E. injection E as -> ->.
  repeat split.
  - by apply (getFatePoints_after_write w _ v r).
  - by rewrite (getPlayerCharacter_after_write w _ v r).
Qed.

(** X10: where a use refuses, a removal empties: with a host that accepts the
    writes, [removeRuin] and [removeFate] in a GM's session asked for at
    least what there is return [true] and leave the value [0]. *)
Theorem remove_of_at_least_current_empties
    (h : Host) (user : User) (amount : Z) (opts : Options) (w : World) :
  isGM (game_user w) = true ->
  (acceptsRuinWrites h ->
   current (getRuinPoints w) <= amount ->
   exists w', removeRuin h amount opts w = (Returned true, w')
              /\ getRuinPoints w' = mkPoints 0 (max (getRuinPoints w)))
  /\ (forall fp,
      acceptsFateWrites h ->
      getFatePoints w user = Some fp ->
      current fp <= amount ->
      exists w', removeFate h user amount w = (Returned true, w')
                 /\ getFatePoints w' user = Some (mkPoints 0 (max fp))).
Proof.
  intros Hgm. split.
  - intros Hacc Hle.
    destruct (removeRuin_run h amount opts w Hgm) as (l1 & l2 & E).
    cbv zeta in E. destruct (removeRuin h amount opts w) as [c w'].
    destruct (ruin_run_accepted h _ _ _ w c w' Hacc
                (ex_intro _ l1 (ex_intro _ l2 E))) as (-> & Hv & _).
    exists w'. split; [done|]. rewrite Hv. f_equal. lia.
  - intros fp Hacc Hfp Hle.
    destruct (getFatePoints_Some_character w user fp Hfp) as [_ [r Hr]].
    destruct (removeFate_run h user amount r fp w Hgm Hr Hfp) as (l & E).
    cbv zeta in E. destruct (removeFate h user amount w) as [c w'].
    destruct (fate_run_accepted h user r fp _ w c w' Hacc Hr Hfp
                (ex_intro _ l E)) as (-> & Hv & _).
    exists w'. split; [done|]. rewrite Hv. do 2 f_equal. lia.
Qed.

(** ** Round trips *)

Lemma addRuin_accepted h amount opts w :
  isGM (game_user w) = true ->
  acceptsRuinWrites h ->
  exists w',
    addRuin h amount opts w = (Returned true, w')
    /\ getRuinPoints w'
       = mkPoints (Z.min (max (getRuinPoints w)) (current (getRuinPoints w) + amount))
                  (max (getRuinPoints w))
    /\ game_user w' = game_user w.
Proof.
  intros Hgm Hacc.
  destruct (addRuin_run h amount opts w Hgm) as (l1 & l2 & E).
  cbv zeta in E. destruct (addRuin h amount opts w) as [c w'].
  destruct (ruin_run_accepted h _ _ _ w c w' Hacc
              (ex_intro _ l1 (ex_intro _ l2 E))) as (-> & ? & _ & _ & ?).
  by exists w'.
Qed.

Lemma removeRuin_accepted h amount opts w :
  isGM (game_user w) = true ->
  acceptsRuinWrites h ->
  exists w',
    removeRuin h amount opts w = (Returned true, w')
    /\ getRuinPoints w'
       = mkPoints (Z.max 0 (current (getRuinPoints w) - amount))
                  (max (getRuinPoints w))
    /\ game_user w' = game_user w.
Proof.
  intros Hgm Hacc.
  destruct (removeRuin_run h amount opts w Hgm) as (l1 & l2 & E).
  cbv zeta in E. destruct (removeRuin h amount opts w) as [c w'].
  destruct (ruin_run_accepted h _ _ _ w c w' Hacc
              (ex_intro _ l1 (ex_intro _ l2 E))) as (-> & ? & _ & _ & ?).
  by exists w'.
Qed.

Lemma addFate_accepted h user amount fp w :
  isGM (game_user w) = true ->
  acceptsFateWrites h ->
  getFatePoints w user = Some fp ->
  exists w',
    addFate h user amount w = (Returned true, w')
    /\ getFatePoints w' user
       = Some (mkPoints (Z.min (max fp) (current fp + amount)) (max fp))
    /\ game_user w' = game_user w.
Proof.
  intros Hgm Hacc Hfp.
  destruct (getFatePoints_Some_character w user fp Hfp) as [_ [r Hr]].
  destruct (addFate_run h user amount r fp w Hgm Hr Hfp) as (l & E).
  cbv zeta in E. destruct (addFate h user amount w) as [c w'].
  destruct (fate_run_accepted h user r fp _ w c w' Hacc Hr Hfp
              (ex_intro _ l E)) as (-> & ? & _ & ? & _).
  by exists w'.
Qed.

Lemma removeFate_accepted h user amount fp w :
  isGM (game_user w) = true ->
  acceptsFateWrites h ->
  getFatePoints w user = Some fp ->
  exists w',
    removeFate h user amount w = (Returned true, w')
    /\ getFatePoints w' user
       = Some (mkPoints (Z.max 0 (current fp - amount)) (max fp))
    /\ game_user w' = game_user w.
Proof.
  intros Hgm Hacc Hfp.
  destruct (getFatePoints_Some_character w user fp Hfp) as [_ [r Hr]].
  destruct (removeFate_run h user amount r fp w Hgm Hr Hfp) as (l & E).
  cbv zeta in E. destruct (removeFate h user amount w) as [c w'].
  destruct (fate_run_accepted h user r fp _ w c w' Hacc Hr Hfp
              (ex_intro _ l E)) as (-> & ? & _ & ? & _).
  by exists w'.
Qed.

Lemma useRuin_accepted h amount opts w :
  isGM (game_user w) = true ->
  acceptsRuinWrites h ->
  amount <= current (getRuinPoints w) ->
  exists w',
    useRuin h amount opts w = (Returned true, w')
    /\ getRuinPoints w'
       = mkPoints (Z.max 0 (current (getRuinPoints w) - amount))
                  (max (getRuinPoints w)).
Proof.
  intros Hgm Hacc Hle.
  destruct (useRuin_run h amount opts w Hgm Hle) as (l1 & l2 & E).
  cbv zeta in E. destruct (useRuin h amount opts w) as [c w'].
  destruct (ruin_run_accepted h _ _ _ w c w' Hacc
              (ex_intro _ l1 (ex_intro _ l2 E))) as (-> & ? & _).
  by exists w'.
Qed.

Lemma useFate_accepted h user amount fp w :
  _canUseFate w user = true ->
  acceptsFateWrites h ->
  getFatePoints w user = Some fp ->
  amount <= current fp ->
  exists w',
    useFate h user amount w = (Returned true, w')
    /\ getFatePoints w' user
       = Some (mkPoints (Z.max 0 (current fp - amount)) (max fp)).
Proof.
  intros Hcan Hacc Hfp Hle.
  destruct (getFatePoints_Some_character w user fp Hfp) as [_ [r Hr]].
  destruct (useFate_run h user amount r fp w Hcan Hr Hfp Hle) as (l & E).
  cbv zeta in E. destruct (useFate h user amount w) as [c w'].
  destruct (fate_run_accepted h user r fp _ w c w' Hacc Hr Hfp
              (ex_intro _ l E)) as (-> & ? & _).
  by exists w'.
Qed.

(** ** What a use or a removal writes *)

(** C1: for a Fate or Ruin state with [0 <= current <= max] and an amount
    [>= 0], a successful call of [useRuin], [removeRuin], [useFate] or
    [removeFate] writes [max(0, current - amount)], which is never
    negative.  Every call that returns [true] has written it: it is the
    value read back afterwards, next to the unchanged maximum.  And the
    calls do succeed and write it: with a host that accepts the writes,
    [removeRuin] and [removeFate] in a GM's session, [useRuin] in a GM's
    session and [useFate] in a session that may use the user's fate, the
    two uses when [amount <= current]. *)
Theorem use_remove_write_clamped_difference
    (h : Host) (user : User) (opts : Options) (w : World)
    (cur mx amount : Z) :
  0 <= cur <= mx ->
  0 <= amount ->
  let v := Z.max 0 (cur - amount) in
  0 <= v
  /\ (getRuinPoints w = mkPoints cur mx ->
      (forall w',
         useRuin h amount opts w = (Returned true, w')
         \/ removeRuin h amount opts w = (Returned true, w') ->
         getRuinPoints w' = mkPoints v mx)
      /\ (isGM (game_user w) = true ->
          acceptsRuinWrites h ->
          (amount <= cur ->
           exists w', useRuin h amount opts w = (Returned true, w')
                      /\ getRuinPoints w' = mkPoints v mx)
          /\ (exists w', removeRuin h amount opts w = (Returned true, w')
                         /\ getRuinPoints w' = mkPoints v mx)))
  /\ (getFatePoints w user = Some (mkPoints cur mx) ->
      (forall w',
         useFate h user amount w = (Returned true, w')
         \/ removeFate h user amount w = (Returned true, w') ->
         getFatePoints w' user = Some (mkPoints v mx))
      /\ (acceptsFateWrites h ->
          (_canUseFate w user = true ->
           amount <= cur ->
           exists w', useFate h user amount w = (Returned true, w')
                      /\ getFatePoints w' user = Some (mkPoints v mx))
          /\ (isGM (game_user w) = true ->
              exists w', removeFate h user amount w = (Returned true, w')
                         /\ getFatePoints w' user = Some (mkPoints v mx)))).
Proof.
  intros _ _ v. split; [subst v; lia|]. split.
  - intros Hr. split.
    + intros w' Hcall.
      assert (ruinOutcome v w (Returned true) w') as Ho.
      { destruct Hcall as [H|H].
        - apply useRuin_outcome in H as [H _]. by rewrite Hr in H.
        - apply removeRuin_outcome in H as [H _]. by rewrite Hr in H. }
      apply ruinOutcome_true in Ho. by rewrite Ho, Hr.
    + intros Hgm Hacc. split.
      * intros Hle.
        destruct (useRuin_accepted h amount opts w Hgm Hacc) as (w' & ? & Hv).
        { by rewrite Hr. }
        exists w'. split; [done|]. by rewrite Hv, Hr.
      * destruct (removeRuin_accepted h amount opts w Hgm Hacc)
          as (w' & ? & Hv & _).
        exists w'. split; [done|]. by rewrite Hv, Hr.
  - intros Hf. split.
    + intros w' Hcall.
      apply (fateOutcome_true _ _ (mkPoints cur mx) w w' Hf).
      destruct Hcall as [H|H].
      * by apply (useFate_outcome _ _ _ _ _ _ _ Hf) in H as [H _].
      * by apply (removeFate_outcome _ _ _ _ _ _ _ Hf) in H as [H _].
    + intros Hacc. split.
      * intros Hcan Hle.
        by destruct (useFate_accepted h user amount _ w Hcan Hacc Hf Hle)
          as (w' & ? & ?); exists w'.
      * intros Hgm.
        by destruct (removeFate_accepted h user amount _ w Hgm Hacc Hf)
          as (w' & ? & ? & _); exists w'.
Qed.

Lemma use_remove_write_clamped_difference_witness :
  (exists w', useRuin permissiveHost 1 noOptions gmSession = (Returned true, w')
              /\ getRuinPoints w' = mkPoints (Z.max 0 (3 - 1)) 5)
  /\ (exists w', removeRuin permissiveHost 9 noOptions gmSession = (Returned true, w')
                 /\ getRuinPoints w' = mkPoints (Z.max 0 (3 - 9)) 5)
  /\ (exists w', useFate permissiveHost alice 3 aliceSession = (Returned true, w')
                 /\ getFatePoints w' alice = Some (mkPoints (Z.max 0 (3 - 3)) 5))
  /\ (exists w', removeFate permissiveHost alice 4 gmSession = (Returned true, w')
                 /\ getFatePoints w' alice = Some (mkPoints (Z.max 0 (3 - 4)) 5)).
Proof.
  repeat apply conj.
  - apply (use_remove_write_clamped_difference
             permissiveHost alice noOptions gmSession 3 5 1
             ltac:(lia) ltac:(lia)).
    + reflexivity.
    + reflexivity.
    + split; intros ?; reflexivity.
    + lia.
  - apply (use_remove_write_clamped_difference
             permissiveHost alice noOptions gmSession 3 5 9
             ltac:(lia) ltac:(lia)).
    + reflexivity.
    + reflexivity.
    + split; intros ?; reflexivity.
  - apply (use_remove_write_clamped_difference
             permissiveHost alice noOptions aliceSession 3 5 3
             ltac:(lia) ltac:(lia)).
    + reflexivity.
    + intros r v. reflexivity.
    + reflexivity.
    + lia.
  - apply (use_remove_write_clamped_difference
             permissiveHost alice noOptions gmSession 3 5 4
             ltac:(lia) ltac:(lia)).
    + reflexivity.
    + intros r v. reflexivity.
    + reflexivity.
Defined.

(** X11: for integer points up to [Number.MAX_SAFE_INTEGER], adding Ruin
    and removing the same amount again, or the other way round, gives
    back the Ruin there was, as long as neither step is clamped: the sum
    stays within the maximum, the difference within 0. *)
Theorem ruin_add_and_remove_cancel
    (h : Host) (amount : Z) (opts1 opts2 : Options) (w : World) :
  isGM (game_user w) = true ->
  acceptsRuinWrites h ->
  0 <= amount ->
  max (getRuinPoints w) <= MAX_SAFE_INTEGER ->
  let cur := current (getRuinPoints w) in
  let mx := max (getRuinPoints w) in
  (0 <= cur -> cur + amount <= mx ->
   exists w1 w2,
     addRuin h amount opts1 w = (Returned true, w1)
     /\ removeRuin h amount opts2 w1 = (Returned true, w2)
     /\ getRuinPoints w2 = getRuinPoints w)
  /\ (amount <= cur -> cur <= mx ->
      exists w1 w2,
        removeRuin h amount opts1 w = (Returned true, w1)
        /\ addRuin h amount opts2 w1 = (Returned true, w2)
        /\ getRuinPoints w2 = getRuinPoints w).
Proof.
  intros Hgm Hacc Hamount _ cur mx. subst cur mx.
  destruct (getRuinPoints w) as [cur mx] eqn:Hw. cbn. split.
  - intros Hcur Hsum.
    destruct (addRuin_accepted h amount opts1 w Hgm Hacc) as (w1 & H1 & Hv1 & Hu1).
    assert (isGM (game_user w1) = true) as Hgm1 by (by rewrite Hu1).
    destruct (removeRuin_accepted h amount opts2 w1 Hgm1 Hacc)
      as (w2 & H2 & Hv2 & _).
    exists w1, w2. repeat split; try done.
    rewrite Hv2, Hv1, Hw. cbn. f_equal. lia.
  - intros Hle Hmax.
    destruct (removeRuin_accepted h amount opts1 w Hgm Hacc)
      as (w1 & H1 & Hv1 & Hu1).
    assert (isGM (game_user w1) = true) as Hgm1 by (by rewrite Hu1).
    destruct (addRuin_accepted h amount opts2 w1 Hgm1 Hacc) as (w2 & H2 & Hv2 & _).
    exists w1, w2. repeat split; try done.
    rewrite Hv2, Hv1, Hw. cbn. f_equal. lia.
Qed.

(** X12: the same for a character's fate, for integer points up to
    [Number.MAX_SAFE_INTEGER]: [addFate] followed by [removeFate] of the
    same amount, or the other way round, reads back the fate there was,
    as long as neither step is clamped. *)
Theorem fate_add_and_remove_cancel
    (h : Host) (user : User) (amount : Z) (fp : Points) (w : World) :
  isGM (game_user w) = true ->
  acceptsFateWrites h ->
  getFatePoints w user = Some fp ->
  0 <= amount ->
  max fp <= MAX_SAFE_INTEGER ->
  (0 <= current fp -> current fp + amount <= max fp ->
   exists w1 w2,
     addFate h user amount w = (Returned true, w1)
     /\ removeFate h user amount w1 = (Returned true, w2)
     /\ getFatePoints w2 user = Some fp)
  /\ (amount <= current fp -> current fp <= max fp ->
      exists w1 w2,
        removeFate h user amount w = (Returned true, w1)
        /\ addFate h user amount w1 = (Returned true, w2)
        /\ getFatePoints w2 user = Some fp).
Proof.
  intros Hgm Hacc Hfp Hamount _. destruct fp as [cur mx]. cbn. split.
  - intros Hcur Hsum.
    destruct (addFate_accepted h user amount _ w Hgm Hacc Hfp)
      as (w1 & H1 & Hv1 & Hu1).
    assert (isGM (game_user w1) = true) as Hgm1 by (by rewrite Hu1).
    destruct (removeFate_accepted h user amount _ w1 Hgm1 Hacc Hv1)
      as (w2 & H2 & Hv2 & _).
    exists w1, w2. repeat split; try done.
    rewrite Hv2. cbn. do 2 f_equal. lia.
  - intros Hle Hmax.
    destruct (removeFate_accepted h user amount _ w Hgm Hacc Hfp)
      as (w1 & H1 & Hv1 & Hu1).
    assert (isGM (game_user w1) = true) as Hgm1 by (by rewrite Hu1).
    destruct (addFate_accepted h user amount _ w1 Hgm1 Hacc Hv1)
      as (w2 & H2 & Hv2 & _).
    exists w1, w2. repeat split; try done.
    rewrite Hv2. cbn. do 2 f_equal. lia.
Qed.

(** ** Who may spend whose fate *)

(** X13: a player can spend only the own character's fate: in a non-GM
    session [useFate] on another user is refused whatever the "allow
    player use" setting says; on the session's own user, with the
    setting on, it returns [true] and stores [current - amount] once the
    character holds that much and the host accepts the update. *)
Theorem player_spends_only_own_fate
    (h : Host) (user : User) (amount : Z) (w : World) :
  isGM (game_user w) = false ->
  (user_id user <> user_id (game_user w) ->
   useFate h user amount w = (Returned false, warned "CannotUseFate" w))
  /\ (game_user w = user ->
      allowPlayerUse (game_settings w) = true ->
      acceptsFateWrites h ->
      forall fp,
        getFatePoints w user = Some fp ->
        amount <= current fp ->
        exists w',
          useFate h user amount w = (Returned true, w')
          /\ getFatePoints w' user
             = Some (mkPoints (current fp - amount) (max fp))).
Proof.
  intros Hplayer. split.
  - intros Hother. apply useFate_unauthorized. unfold _canUseFate.
    rewrite Hplayer. apply String.eqb_neq in Hother as ->.
    by destruct (isGM user), (allowPlayerUse (game_settings w)).
  - intros Hself Hon Hacc fp Hfp Hle.
    assert (_canUseFate w user = true) as Hcan.
    { unfold _canUseFate. rewrite Hon, Hself, String.eqb_refl.
      rewrite Hself in Hplayer. by rewrite Hplayer. }
    destruct (getFatePoints_Some_character w user fp Hfp) as [_ [r Hr]].
    destruct (useFate_run h user amount r fp w Hcan Hr Hfp Hle) as (l & E).
    cbv zeta in E. destruct (useFate h user amount w) as [c w'].
    destruct (fate_run_accepted h user r fp _ w c w' Hacc Hr Hfp
                (ex_intro _ l E)) as (-> & Hv & _).
    exists w'. split; [done|]. rewrite Hv. do 2 f_equal. lia.
Qed.

(** X15: the roster and the manager decide alike: for every user that gets a
    fate badge, that is whose fate can be read, the check the roster
    makes before it offers the click, [_canInteractWithFate], gives what
    the check of [useFate], [_canUseFate], gives. *)
Theorem roster_and_manager_authorise_alike
    (w : World) (user : User) (fateData : Points) :
  getFatePoints w user = Some fateData ->
  UIHandler._canInteractWithFate w user = _canUseFate w user.
Proof.
  intros Hfp. destruct (getFatePoints_Some_character w user _ Hfp) as [Hu _].
  unfold UIHandler._canInteractWithFate, _canUseFate. rewrite Hu.
  destruct (isGM (game_user w)), (allowPlayerUse (game_settings w)); cbn;
    try done.
  - by rewrite orb_true_r.
  - by rewrite orb_false_r.
Qed.

(** ** Resolving a user's character *)

Lemma findRef_Some {A} (p : A -> bool) (l : list A) (i : nat) :
  findRef p l = Some i <->
  (exists x, l !! i = Some x /\ p x = true)
  /\ (forall j y, (j < i)%nat -> l !! j = Some y -> p y = false).
Proof.
  revert i. induction l as [|x l IH]; intros i; cbn.
  - split; [done|]. by intros [(y & Hy & _) _].
  - destruct (p x) eqn:Hx.
    + split.
      * intros [= <-]. split; [by exists x|]. intros j y Hj. lia.
      * intros [(y & Hy & Hpy) Hlt]. destruct i as [|i]; [done|].
        specialize (Hlt 0%nat x ltac:(lia) eq_refl). congruence.
    + rewrite fmap_Some. destruct i as [|i].
      * split; [by intros (k & _ & [=])|].
        intros [(y & [= <-] & Hpy) _]. congruence.
      * split.
        -- intros (k & Hk & [= <-]). apply IH in Hk as [Hat Hlt].
           split; [done|].
           intros [|j] y Hj; cbn; [congruence|]. apply Hlt. lia.
        -- intros [Hat Hlt]. exists i. split; [|done].
           apply IH. split; [done|].
           intros j z Hj Hz. apply (Hlt (S j) z); [lia|done].
Qed.

Lemma findRef_None {A} (p : A -> bool) (l : list A) :
  findRef p l = None <-> forall j y, l !! j = Some y -> p y = false.
Proof.
  induction l as [|x l IH]; cbn.
  - split; [by intros _ j y|done].
  - destruct (p x) eqn:Hx.
    + split; [done|]. intros H. specialize (H 0%nat x eq_refl). congruence.
    + rewrite fmap_None, IH. split.
      * intros H [|j] y Hy; cbn in Hy; [congruence|]. by apply (H j y).
      * intros H j y Hy. by apply (H (S j) y).
Qed.

Lemma is_character_spec a : is_character a = true <-> actor_type a = "character".
Proof. apply String.eqb_eq. Qed.

Lemma testUserPermission_spec a user :
  testUserPermission a user = true <-> In (user_id user) (actor_owners a).
Proof.
  unfold testUserPermission. rewrite existsb_exists. split.
  - intros (x & Hin & Heq). apply String.eqb_eq in Heq. by subst.
  - intros Hin. exists (user_id user). split; [done|]. apply String.eqb_refl.
Qed.

Lemma owned_character_spec w user j :
  ownsCharacterAt w user j <->
  exists a, game_actors w !! j = Some a
            /\ is_character a && hasPlayerOwner a && testUserPermission a user = true.
Proof.
  unfold ownsCharacterAt. split.
  - intros (a & Ha & Ht & Ho & Hin). exists a. split; [done|].
    rewrite !andb_true_iff, is_character_spec, testUserPermission_spec. done.
  - intros (a & Ha & H). exists a. split; [done|].
    rewrite !andb_true_iff, is_character_spec, testUserPermission_spec in H.
    by destruct H as [[? ?] ?].
Qed.

Lemma assigned_character_spec w user r :
  assignedCharacter w user r <->
  character user ≫= (fun r => (game_actors w !! r) ≫=
                     (fun a => if is_character a then Some r else None))
  = Some r.
Proof.
  unfold assignedCharacter. destruct (character user) as [c|]; cbn.
  2:{ split; [by intros [? _]|done]. }
  destruct (game_actors w !! c) as [a|] eqn:Ha; cbn.
  - destruct (is_character a) eqn:Hc.
    + apply is_character_spec in Hc. split.
      * by intros [[= ->] _].
      * intros [= ->]. split; [done|]. by exists a.
    + split; [|done]. intros [[= ->] (a' & Ha' & Ht)].
      rewrite Ha in Ha'. injection Ha' as <-.
      apply is_character_spec in Ht. congruence.
  - split; [|done]. intros [[= ->] (a' & Ha' & _)]. congruence.
Qed.

(** X16: what [getPlayerCharacter] returns is sound: never anything for a GM
    user or a null user, and otherwise a reference that resolves in
    [game.actors] to an actor of type ["character"] which is the user's
    assigned character or a player-owned character the user owns. *)
Theorem getPlayerCharacter_is_a_character_of_the_user
    (w : World) (user : option User) (r : nat) :
  getPlayerCharacter w user = Some r ->
  exists u a,
    user = Some u
    /\ isGM u = false
    /\ game_actors w !! r = Some a
    /\ actor_type a = "character"
    /\ (assignedCharacter w u r \/ ownsCharacterAt w u r).
Proof.
  unfold getPlayerCharacter. destruct user as [u|]; [|done].
  destruct (isGM u) eqn:Hgm; [done|].
  destruct (character u ≫= _) as [r'|] eqn:Hassigned.
  - intros [= ->]. apply assigned_character_spec in Hassigned.
    pose proof Hassigned as [Hc (a & Ha & Ht)].
    exists u, a. repeat split; try done. by left.
  - intros Hfind. apply findRef_Some in Hfind as [(a & Ha & Hp) _].
    assert (ownsCharacterAt w u r) as Hown
      by (apply owned_character_spec; by exists a).
    pose proof Hown as (a' & Ha' & Ht & Ho & Hin).
    rewrite Ha in Ha'. injection Ha' as <-.
    exists u, a. repeat split; try done. by right.
Qed.

(** X17: the order in which [getPlayerCharacter] looks: for a user who is not
    a GM the assigned character wins when it is an actor of type
    ["character"]; without one the result is the first actor of
    [game.actors] that is a player-owned character the user owns, and
    there is no result exactly when the user owns none. *)
Theorem getPlayerCharacter_prefers_assignment_then_first_owned
    (w : World) (user : User) :
  isGM user = false ->
  (forall r, assignedCharacter w user r ->
             getPlayerCharacter w (Some user) = Some r)
  /\ ((forall r, ~ assignedCharacter w user r) ->
      (forall r, getPlayerCharacter w (Some user) = Some r <->
                 ownsCharacterAt w user r
                 /\ forall j, (j < r)%nat -> ~ ownsCharacterAt w user j)
      /\ (getPlayerCharacter w (Some user) = None <->
          forall j, ~ ownsCharacterAt w user j)).
Proof.
  intros Hgm. unfold getPlayerCharacter. rewrite Hgm. split.
  - intros r Ha. apply assigned_character_spec in Ha. by rewrite Ha.
  - intros Hnone.
    destruct (character user ≫= _) as [r'|] eqn:Hassigned.
    { apply assigned_character_spec in Hassigned. by destruct (Hnone r'). }
    split.
    + intros r. rewrite findRef_Some. split.
      * intros [Hat Hlt]. split; [by apply owned_character_spec|].
        intros j Hj (a & Ha & Hp)%owned_character_spec.
        specialize (Hlt j a Hj Ha). congruence.
      * intros [Hat Hlt]. split; [by apply owned_character_spec|].
        intros j y Hj Hy. apply not_true_is_false. intros Hp.
        apply (Hlt j Hj). apply owned_character_spec. by exists y.
    + rewrite findRef_None. split.
      * intros Hall j (a & Ha & Hp)%owned_character_spec.
        specialize (Hall j a Ha). congruence.
      * intros Hall j y Hy. apply not_true_is_false. intros Hp.
        apply (Hall j). apply owned_character_spec. by exists y.
Qed.

(** ** Logging has no say in what the operations do *)

Lemma sameButLogging_fields w1 w2 :
  sameButLogging w1 w2 <->
  game_user w1 = game_user w2
  /\ game_actors w1 = game_actors w2
  /\ gmRuin (game_settings w1) = gmRuin (game_settings w2)
  /\ gmRuinMax (game_settings w1) = gmRuinMax (game_settings w2)
  /\ showMaxFate (game_settings w1) = showMaxFate (game_settings w2)
  /\ allowPlayerUse (game_settings w1) = allowPlayerUse (game_settings w2)
  /\ showChatMessages (game_settings w1) = showChatMessages (game_settings w2)
  /\ players_rendered w1 = players_rendered w2
  /\ notifications w1 = notifications w2
  /\ chatLog w1 = chatLog w2
  /\ renders w1 = renders w2.
Proof.
  unfold sameButLogging, eraseLogging. split.
  - intros [= ? ? ? ? ? ? ? ? ? ? ?]. by repeat split.
  - intros (-> & -> & -> & -> & -> & -> & -> & -> & -> & -> & ->). done.
Qed.

(** Closes [g w1 = g w2] for a reader [g] of users, actors and the
    settings other than the log level. *)
Ltac same_reading :=
  let Hs := fresh "Hs" in
  let Hu := fresh "Hu" in
  let Ha := fresh "Ha" in
  let Hr := fresh "Hr" in
  let Hm := fresh "Hm" in
  let Hx := fresh "Hx" in
  let Hp := fresh "Hp" in
  let Hc := fresh "Hc" in
  intros ? ? Hs;
  apply sameButLogging_fields in Hs
    as (Hu & Ha & Hr & Hm & Hx & Hp & Hc & _);
  cbv beta;
  unfold getRuinPoints, getFatePoints, getPlayerCharacter, _canUseFate;
  rewrite ?Hu, ?Ha, ?Hr, ?Hm, ?Hp, ?Hc; reflexivity.

(** Closes [sameButLogging (g w1) (g w2)] for a step [g] that changes
    both worlds alike. *)
Ltac same_writing :=
  let Hs := fresh "Hs" in
  intros ? ? Hs;
  apply sameButLogging_fields in Hs
    as (? & ? & ? & ? & ? & ? & ? & ? & ? & ? & ?);
  apply sameButLogging_fields; cbn; repeat split; congruence.

Section IgnoresLogging.

Lemma ignoresLogging_ret {A} (a : A) : ignoresLogging (mret a).
Proof. by intros w1 w2 Hs. Qed.

Lemma ignoresLogging_bind {A C} (m : Async A) (k : A -> Async C) :
  ignoresLogging m -> (forall a, ignoresLogging (k a)) ->
  ignoresLogging (m ≫= k).
Proof.
  intros Hm Hk w1 w2 Hs. unfold mbind, Async_bind.
  destruct (Hm w1 w2 Hs) as [Hc Hw].
  destruct (m w1) as [c1 w1'], (m w2) as [c2 w2']. cbn in Hc, Hw. subst c2.
  destruct c1; [by apply Hk | done].
Qed.

Lemma ignoresLogging_tryCatch {A} (body handler : Async A) :
  ignoresLogging body -> ignoresLogging handler ->
  ignoresLogging (tryCatch body handler).
Proof.
  intros Hb Hh w1 w2 Hs. unfold tryCatch.
  destruct (Hb w1 w2 Hs) as [Hc Hw].
  destruct (body w1) as [c1 w1'], (body w2) as [c2 w2']. cbn in Hc, Hw. subst c2.
  destruct c1; [done | by apply Hh].
Qed.

Lemma ignoresLogging_gets {A} (g : World -> A) :
  (forall w1 w2, sameButLogging w1 w2 -> g w1 = g w2) ->
  ignoresLogging (gets g).
Proof. intros Hg w1 w2 Hs. cbn. split; [by rewrite (Hg w1 w2)|done]. Qed.

Lemma ignoresLogging_modify (g : World -> World) :
  (forall w1 w2, sameButLogging w1 w2 -> sameButLogging (g w1) (g w2)) ->
  ignoresLogging (modify g).
Proof. intros Hg w1 w2 Hs. cbn. split; [done|by apply Hg]. Qed.

Lemma ignoresLogging_log level message : ignoresLogging (log level message).
Proof.
  intros w1 w2 Hs.
  destruct (log_state level message w1) as [l1 ->].
  destruct (log_state level message w2) as [l2 ->]. cbn. split; [done|].
  exact Hs.
Qed.

Lemma ignoresLogging_notify key type : ignoresLogging (notify key type).
Proof. apply ignoresLogging_modify. same_writing. Qed.

Lemma ignoresLogging_showChatMessages :
  ignoresLogging (getSetting showChatMessages).
Proof. apply ignoresLogging_gets. same_reading. Qed.

Lemma ignoresLogging_setSetting_GM_RUIN h v :
  ignoresLogging (setSetting_GM_RUIN h v).
Proof.
  intros w1 w2. unfold setSetting_GM_RUIN.
  destruct (acceptsSettingWrite h v); cbn; [|done].
  split; [done|]. revert w1 w2 H. same_writing.
Qed.

Lemma ignoresLogging_character_update h r v :
  ignoresLogging (character_update h r v).
Proof.
  intros w1 w2. unfold character_update.
  destruct (acceptsActorUpdate h r v); cbn; [|done].
  split; [done|]. revert w1 w2 H. same_writing.
Qed.

Lemma ignoresLogging_ChatMessage_create h m :
  ignoresLogging (ChatMessage_create h m).
Proof.
  intros w1 w2. unfold ChatMessage_create.
  destruct (acceptsChatMessage h m); cbn; [|done].
  split; [done|]. revert w1 w2 H. same_writing.
Qed.

Lemma ignoresLogging__sendRuinChatMessage h action amount newValue maxValue :
  ignoresLogging (_sendRuinChatMessage h action amount newValue maxValue).
Proof.
  unfold _sendRuinChatMessage.
  repeat (destruct (String.eqb action _));
    first [ apply ignoresLogging_ChatMessage_create | apply ignoresLogging_ret ].
Qed.

End IgnoresLogging.

Ltac ignoresLogging_step :=
  lazymatch goal with
  | |- ignoresLogging (mret _) => apply ignoresLogging_ret
  | |- ignoresLogging (_ ≫= _) => apply ignoresLogging_bind; [|intros ?]
  | |- ignoresLogging (tryCatch _ _) => apply ignoresLogging_tryCatch
  | |- ignoresLogging (getSetting showChatMessages) =>
    apply ignoresLogging_showChatMessages
  | |- ignoresLogging (gets _) => apply ignoresLogging_gets; same_reading
  | |- ignoresLogging (log _ _) => apply ignoresLogging_log
  | |- ignoresLogging (notify _ _) => apply ignoresLogging_notify
  | |- ignoresLogging (setSetting_GM_RUIN _ _) =>
    apply ignoresLogging_setSetting_GM_RUIN
  | |- ignoresLogging (character_update _ _ _) =>
    apply ignoresLogging_character_update
  | |- ignoresLogging (_sendRuinChatMessage _ _ _ _ _) =>
    apply ignoresLogging__sendRuinChatMessage
  | |- ignoresLogging (if ?b then _ else _) => destruct b
  | |- ignoresLogging (match ?o with Some _ => _ | None => _ end) => destruct o
  | |- ignoresLogging (let _ := _ in _) => cbv zeta
  end.

(** X18: logging is diagnostics only: run from two worlds that differ at most
    in the configured log level and in what the console holds, each of
    the six operations returns the same result and leaves the same
    settings, actors, notifications and chat log. *)
Theorem operations_ignore_logging
    (h : Host) (user : User) (amount : Z) (opts : Options) :
  ignoresLogging (useRuin h amount opts)
  /\ ignoresLogging (addRuin h amount opts)
  /\ ignoresLogging (removeRuin h amount opts)
  /\ ignoresLogging (useFate h user amount)
  /\ ignoresLogging (addFate h user amount)
  /\ ignoresLogging (removeFate h user amount).
Proof.
  unfold useRuin, addRuin, removeRuin, useFate, addFate, removeFate.
  repeat apply conj; repeat ignoresLogging_step.
Qed.

(** ** The actor hooks, from snapshot to chat message *)

Lemma sendFateChangeMessage_changed h actor old new :
  new <> old ->
  sendFateChangeMessage h actor old new (fateMaxOf actor) (new - old)
  = ChatMessage_create h (fateChangeMessage actor old new).
Proof.
  intros Hne. unfold sendFateChangeMessage, fateChangeMessage.
  destruct (Z.gtb_spec (new - old) 0) as [Hgt|Hle].
  - by destruct (Z.ltb_spec old new); [|lia].
  - destruct (Z.ltb_spec (new - old) 0); [|lia].
    by destruct (Z.ltb_spec old new); [lia|].
Qed.

(** The post-update handler in the session that made a tracked change,
    with chat messages on. *)
Lemma updateActor_in_acting_session h actor changes old w :
  fateValueOf actor <> old ->
  showChatMessages (game_settings w) = true ->
  exists l,
    updateActor h actor changes
      (mkUpdateOptions (Some (mkSnapshot old (actor_id actor))))
      (user_id (game_user w)) w
    = if acceptsChatMessage h (fateChangeMessage actor old (fateValueOf actor))
      then (Returned tt,
            refreshed (chatCreated (fateChangeMessage actor old (fateValueOf actor))
                                   (with_console l w)))
      else (Thrown, with_console l w).
Proof.
  intros Hne Hchat. unfold updateActor. cbn [_impmalSharedFate actorId oldFateValue].
  rewrite String.eqb_refl. cbn [negb]. pose proof Hne as Hne'.
  apply Z.eqb_neq in Hne as ->. run_async.
  destruct (log_state "debug" "Fate changed on actor" w) as [l ->].
  exists l. cbn. rewrite String.eqb_refl. cbn. rewrite Hchat. cbn.
  rewrite sendFateChangeMessage_changed by done.
  unfold ChatMessage_create. by destruct (acceptsChatMessage h _).
Qed.

Lemma preUpdateActor_tracked actor v options userId w :
  actor_type actor = "character" ->
  exists l,
    preUpdateActor actor (mkChanges (Some v)) options userId w
    = (Returned (mkUpdateOptions
                   (Some (mkSnapshot (fateValueOf actor) (actor_id actor)))),
       with_console l w).
Proof.
  intros Ht. unfold preUpdateActor. rewrite Ht. cbn.
  run_async. destruct (log_state "debug" "Tracking fate change" w) as [l ->].
  by exists l.
Qed.

(** X19: from snapshot to chat message: when the session's own user changes
    the fate value of a character from [old] to another value [v], with
    chat messages on, the two handlers together create exactly one
    message, ["Chat.FateIncreased"] for a gain and ["Chat.FateDecreased"]
    for a loss, with the character's name, the amount [|v - old|], the
    old and new value and the maximum, and then refresh the roster; when
    the host refuses the message the handler throws and the roster is
    not refreshed. *)
Theorem tracked_fate_change_is_announced_once
    (h : Host) (actor : Actor) (v : Z) (w : World) :
  actor_type actor = "character" ->
  v <> fateValueOf actor ->
  showChatMessages (game_settings w) = true ->
  let old := fateValueOf actor in
  let actor' := applyChanges (mkChanges (Some v)) actor in
  let m := mkChat "impmal-shared-fate-message fate-message"
                  (if old <? v then "Chat.FateIncreased" else "Chat.FateDecreased")
                  (actor_name actor) (Z.abs (v - old)) (Some old) v
                  (fateMaxOf actor) in
  exists w',
    actorUpdateInSession h actor (mkChanges (Some v)) (user_id (game_user w)) w
    = (if acceptsChatMessage h m then Returned tt else Thrown, w')
    /\ chatLog w' = (chatLog w ++ (if acceptsChatMessage h m then [m] else []))%list
    /\ renders w'
       = (if acceptsChatMessage h m && players_rendered w
          then S (renders w) else renders w)
    /\ notifications w' = notifications w
    /\ sameState w w'.
Proof.
  intros Ht Hne Hchat old actor' m.
  destruct (preUpdateActor_tracked actor v (mkUpdateOptions None)
              (user_id (game_user w)) w Ht) as [l1 Epre].
  destruct (updateActor_in_acting_session h actor' (mkChanges (Some v)) old
              (with_console l1 w)) as [l2 Epost]; [done..|].
  change (fateChangeMessage actor' old (fateValueOf actor')) with m in Epost.
  unfold actorUpdateInSession. run_async. rewrite Epre.
  destruct (acceptsChatMessage h m); eexists; (split; [exact Epost|]).
  - unfold refreshed. cbn. destruct (players_rendered w); by repeat split.
  - cbn. rewrite app_nil_r. by repeat split.
Qed.

(** X20: only fate changes of characters are tracked: an update of an actor
    that is not of type ["character"], or one whose changes do not touch
    the fate value, goes through both handlers without a trace: no
    snapshot, no message, no refresh, not even a console line. *)
Theorem untracked_update_leaves_no_trace
    (h : Host) (actor : Actor) (changes : Changes) (userId : string) (w : World) :
  actor_type actor <> "character" \/ change_fate_value changes = None ->
  preUpdateActor actor changes (mkUpdateOptions None) userId w
  = (Returned (mkUpdateOptions None), w)
  /\ actorUpdateInSession h actor changes userId w = (Returned tt, w).
Proof.
  intros Hcase.
  assert (preUpdateActor actor changes (mkUpdateOptions None) userId w
          = (Returned (mkUpdateOptions None), w)) as Hpre.
  { unfold preUpdateActor. destruct Hcase as [Ht|Hc].
    - apply String.eqb_neq in Ht as ->. done.
    - rewrite Hc. by destruct (negb _). }
  split; [done|]. unfold actorUpdateInSession. run_async. by rewrite Hpre.
Qed.

(** ** Clicks on the roster *)

Import UIHandler.

(** Also looks into the operations a handler calls. *)
Ltac keeps_deep :=
  repeat first
    [ keeps_step
    | lazymatch goal with
      | |- keeps _ (useFate _ _ _) => unfold useFate
      | |- keeps _ (addFate _ _ _) => unfold addFate
      | |- keeps _ (removeFate _ _ _) => unfold removeFate
      | |- keeps _ (useRuin _ _ _) => unfold useRuin
      | |- keeps _ (addRuin _ _ _) => unfold addRuin
      | |- keeps _ (removeRuin _ _ _) => unfold removeRuin
      end ].

Lemma canInteract_is_canUse w user fateData :
  getFatePoints w user = Some fateData ->
  UIHandler._canInteractWithFate w user = _canUseFate w user.
Proof.
  intros Hfp. destruct (getFatePoints_Some_character w user _ Hfp) as [Hu _].
  unfold UIHandler._canInteractWithFate, _canUseFate. rewrite Hu.
  destruct (isGM (game_user w)), (allowPlayerUse (game_settings w)); cbn;
    try done.
  - by rewrite orb_true_r.
  - by rewrite orb_false_r.
Qed.

Lemma canInteract_in_player_session w user :
  isGM (game_user w) = false ->
  UIHandler._canInteractWithFate w user = true ->
  allowPlayerUse (game_settings w) = true
  /\ user_id user = user_id (game_user w).
Proof.
  intros Hp. unfold UIHandler._canInteractWithFate. rewrite Hp.
  destruct (allowPlayerUse (game_settings w)); cbn; [|done].
  intros H. by apply String.eqb_eq in H.
Qed.

Lemma Points_eta (p : Points) : p = mkPoints (current p) (max p).
Proof. by destruct p. Qed.

(** A click that is not the GM's ctrl-click, when everything the handler
    asks for holds. *)
Lemma _onFateClick_spends h event user fp w :
  ctrlKey event && isGM (game_user w) = false ->
  acceptsFateWrites h ->
  getFatePoints w user = Some fp ->
  0 < current fp ->
  UIHandler._canInteractWithFate w user = true ->
  exists w',
    UIHandler._onFateClick h true event user w = (Returned tt, w')
    /\ getFatePoints w' user = Some (mkPoints (current fp - 1) (max fp))
    /\ notifications w' = notifications w
    /\ game_settings w' = game_settings w
    /\ chatLog w' = chatLog w.
Proof.
  intros Hplain Hacc Hfp Hpos Hcan.
  destruct (getFatePoints_Some_character w user fp Hfp) as [_ [r Hr]].
  assert (_canUseFate w user = true) as Hcan'
    by (by rewrite <- (canInteract_is_canUse w user fp)).
  destruct (useFate_run h user 1 r fp w Hcan' Hr Hfp ltac:(lia)) as (l & E).
  cbv zeta in E. destruct (useFate h user 1 w) as [c w'] eqn:Hcall.
  destruct (fate_run_accepted h user r fp _ w c w' Hacc Hr Hfp
              (ex_intro _ l E)) as (-> & Hv & _ & _ & Hs & Hn & Hc).
  exists w'. split.
  - unfold UIHandler._onFateClick. run_async. rewrite Hplain, Hfp. cbn.
    destruct (Z.leb_spec (current fp) 0); [lia|]. rewrite Hcan. cbn.
    by rewrite Hcall.
  - repeat split; try done. rewrite Hv. do 2 f_equal. lia.
Qed.

(** The same click when something the handler asks for is missing. *)
Lemma _onFateClick_declines h confirmed event user w :
  ctrlKey event && isGM (game_user w) = false ->
  match getFatePoints w user with
  | Some fp =>
    confirmed && (0 <? current fp) && UIHandler._canInteractWithFate w user = false
  | None => True
  end ->
  exists l,
    UIHandler._onFateClick h confirmed event user w = (Returned tt, with_console l w).
Proof.
  intros Hplain Hmiss. unfold UIHandler._onFateClick. run_async.
  rewrite Hplain. cbn.
  destruct (getFatePoints w user) as [fp|]; [|apply log_state].
  destruct (Z.leb_spec (current fp) 0) as [Hle|Hgt]; [apply log_state|].
  destruct (UIHandler._canInteractWithFate w user); cbn; [|apply log_state].
  destruct confirmed.
  - apply Z.ltb_lt in Hgt. by rewrite Hgt in Hmiss.
  - exists (console w). by destruct w.
Qed.

(** X21: a click on a fate badge that is not the GM's ctrl-click, on a
    character with an integer fate value up to [Number.MAX_SAFE_INTEGER],
    spends one fate point or nothing: one point when the user answers
    the dialog with yes, the character has fate left and the session may
    act on it, and then, the host accepting, the fate read back is one
    less; otherwise no actor changes.  In neither case does the handler
    show a notification or change a setting. *)
Theorem fate_click_spends_one_or_nothing
    (h : Host) (confirmed : bool) (event : UIHandler.MouseEvent) (user : User)
    (w : World) :
  ctrlKey event && isGM (game_user w) = false ->
  acceptsFateWrites h ->
  (forall fp, getFatePoints w user = Some fp -> current fp <= MAX_SAFE_INTEGER) ->
  exists w',
    UIHandler._onFateClick h confirmed event user w = (Returned tt, w')
    /\ notifications w' = notifications w
    /\ game_settings w' = game_settings w
    /\ match getFatePoints w user with
       | Some fp =>
         if confirmed && (0 <? current fp) && UIHandler._canInteractWithFate w user
         then getFatePoints w' user = Some (mkPoints (current fp - 1) (max fp))
         else game_actors w' = game_actors w
       | None => game_actors w' = game_actors w
       end.
Proof.
  intros Hplain Hacc _.
  destruct (getFatePoints w user) as [fp|] eqn:Hfp.
  - destruct (confirmed && (0 <? current fp)
              && UIHandler._canInteractWithFate w user) eqn:Hall.
    + apply andb_true_iff in Hall as [[-> Hpos]%andb_true_iff Hcan].
      apply Z.ltb_lt in Hpos.
      destruct (_onFateClick_spends h event user fp w Hplain Hacc Hfp Hpos Hcan)
        as (w' & ? & ? & ? & ? & _).
      by exists w'.
    + destruct (_onFateClick_declines h confirmed event user w Hplain) as [l ->].
      { by rewrite Hfp. }
      by eexists.
  - destruct (_onFateClick_declines h confirmed event user w Hplain) as [l ->].
    { by rewrite Hfp. }
    by eexists.
Qed.

(** X22: a click on the Ruin badge in a GM's session, the host accepting
    and the Ruin value an integer up to [Number.MAX_SAFE_INTEGER] in
    absolute value: with ctrl it adds one Ruin, up to the maximum;
    without ctrl it uses one Ruin when there is some and the user
    answers the dialog with yes, and changes nothing otherwise.  The
    handler shows no notification. *)
Theorem ruin_click_in_gm_session
    (h : Host) (confirmed : bool) (event : UIHandler.MouseEvent) (w : World) :
  isGM (game_user w) = true ->
  acceptsRuinWrites h ->
  - MAX_SAFE_INTEGER <= current (getRuinPoints w) <= MAX_SAFE_INTEGER ->
  let cur := current (getRuinPoints w) in
  let mx := max (getRuinPoints w) in
  exists w',
    UIHandler._onRuinClick h confirmed event w = (Returned tt, w')
    /\ notifications w' = notifications w
    /\ getRuinPoints w'
       = mkPoints (if ctrlKey event then Z.min mx (cur + 1)
                   else if confirmed && (0 <? cur) then cur - 1
                   else cur) mx.
Proof.
  intros Hgm Hacc _ cur mx. unfold UIHandler._onRuinClick.
  destruct (ctrlKey event).
  - destruct (addRuin_run h 1 noOptions w Hgm) as (l1 & l2 & E).
    cbv zeta in E. destruct (addRuin h 1 noOptions w) as [c w'] eqn:Hcall.
    destruct (ruin_run_accepted h _ _ _ w c w' Hacc
                (ex_intro _ l1 (ex_intro _ l2 E))) as (-> & Hv & _ & Hn & _).
    exists w'. run_async. by rewrite Hcall.
  - run_async. fold cur.
    destruct (Z.leb_spec cur 0) as [Hle|Hgt].
    { destruct (log_state "debug" "Cannot use Ruin - none available" w) as [l ->].
      eexists. split; [done|]. split; [done|].
      destruct (Z.ltb_spec 0 cur); [lia|]. rewrite andb_false_r.
      exact (Points_eta (getRuinPoints w)). }
    destruct (Z.ltb_spec 0 cur); [|lia]. rewrite andb_true_r.
    destruct confirmed.
    + assert (1 <= current (getRuinPoints w)) as Hone by (subst cur; lia).
      destruct (useRuin_run h 1 noOptions w Hgm Hone) as (l1 & l2 & E).
      cbv zeta in E. destruct (useRuin h 1 noOptions w) as [c w'] eqn:Hcall.
      destruct (ruin_run_accepted h _ _ _ w c w' Hacc
                  (ex_intro _ l1 (ex_intro _ l2 E))) as (-> & Hv & _ & Hn & _).
      exists w'. repeat split; try done. rewrite Hv. fold cur mx. f_equal. lia.
    + exists w. repeat split.
Qed.

Lemma ruin_handlers_in_player_session h confirmed event w :
  isGM (game_user w) = false ->
  UIHandler._onRuinRightClick h event w = (Returned tt, w)
  /\ forall c w',
       UIHandler._onRuinClick h confirmed event w = (c, w') ->
       game_settings w' = game_settings w /\ game_actors w' = game_actors w.
Proof.
  intros Hp. split.
  - unfold UIHandler._onRuinRightClick. run_async. by rewrite Hp.
  - intros c w'. unfold UIHandler._onRuinClick.
    destruct (ctrlKey event); run_async.
    + rewrite addRuin_non_gm by done. by intros [= <- <-].
    + destruct (_ <=? _).
      * destruct (log_state "debug" "Cannot use Ruin - none available" w)
          as [l ->].
        by intros [= <- <-].
      * destruct confirmed; [|by intros [= <- <-]].
        rewrite useRuin_non_gm by done. by intros [= <- <-].
Qed.

Lemma _onFateClick_keeps_settings h confirmed event user :
  keeps game_settings (UIHandler._onFateClick h confirmed event user).
Proof. unfold UIHandler._onFateClick. keeps_deep. Qed.

(** X23: in a player's session no click stores anything but the player's own
    fate: the handlers of the Ruin badge change neither settings nor
    actors, the right-click handlers do nothing at all, and a click on a
    fate badge never changes the settings and changes an actor only when
    the badge is the session user's own and "allow player use" is on. *)
Theorem player_session_clicks_reach_only_own_fate
    (h : Host) (confirmed : bool) (event : UIHandler.MouseEvent) (user : User)
    (w : World) :
  isGM (game_user w) = false ->
  UIHandler._onRuinRightClick h event w = (Returned tt, w)
  /\ UIHandler._onFateRightClick h event user w = (Returned tt, w)
  /\ (forall c w',
        UIHandler._onRuinClick h confirmed event w = (c, w') ->
        game_settings w' = game_settings w /\ game_actors w' = game_actors w)
  /\ (forall c w',
        UIHandler._onFateClick h confirmed event user w = (c, w') ->
        game_settings w' = game_settings w
        /\ (game_actors w' = game_actors w
            \/ (user_id user = user_id (game_user w)
                /\ allowPlayerUse (game_settings w) = true))).
Proof.
  intros Hp.
  destruct (ruin_handlers_in_player_session h confirmed event w Hp) as [Hrr Hrc].
  repeat apply conj; try done.
  - unfold UIHandler._onFateRightClick. run_async. by rewrite Hp.
  - intros c w' Hcall. split.
    + by apply (_onFateClick_keeps_settings h confirmed event user w c w').
    + revert Hcall. unfold UIHandler._onFateClick. run_async.
      rewrite Hp, andb_false_r.
      destruct (getFatePoints w user) as [fp|].
      2:{ destruct (log_state "debug" "Cannot use fate - none available" w)
            as [l ->]. intros [= <- <-]. by left. }
      destruct (_ <=? _).
      { destruct (log_state "debug" "Cannot use fate - none available" w)
          as [l ->]. intros [= <- <-]. by left. }
      destruct (UIHandler._canInteractWithFate w user) eqn:Hcan; cbn.
      2:{ destruct (log_state "debug" "Cannot use fate - not authorized" w)
            as [l ->]. intros [= <- <-]. by left. }
      destruct (canInteract_in_player_session w user Hp Hcan) as [Hon Hid].
      destruct confirmed; [|intros [= <- <-]; by left].
      intros _. by right.
Qed.


(** ** The authorisation of [useFate] in one formula *)

(** X14: who may spend whose fate: [_canUseFate] holds exactly when the target
    user is not a GM and the acting session is a GM's or, with "allow
    player use" on, the target user's own. *)
Theorem canUseFate_authorisation_matrix (w : World) (user : User) :
  _canUseFate w user = true <->
  isGM user = false
  /\ (isGM (game_user w) = true
      \/ (allowPlayerUse (game_settings w) = true
          /\ user_id user = user_id (game_user w))).
Proof.
  unfold _canUseFate.
  destruct (isGM user); [by split; [|intros [? _]]|].
  destruct (allowPlayerUse (game_settings w)); cbn.
  - rewrite orb_true_iff, String.eqb_eq. split.
    + intros [?|?]; split; auto.
    + intros [_ [?|[_ ?]]]; auto.
  - split.
    + intros ->. auto.
    + by intros [_ [?|[? _]]].
Qed.

(** ** The badge after an operation *)

(** X25: the badge follows the operation: after a GM has added fate up to or
    beyond a positive maximum the character's badge is classed ["full"]
    and not ["exhausted"], and after a GM has removed at least what there
    was it is classed ["exhausted"] and not ["full"]. *)
Theorem badge_follows_the_fate_operation
    (h : Host) (user : User) (amount : Z) (fp : Points) (w : World) :
  isGM (game_user w) = true ->
  acceptsFateWrites h ->
  getFatePoints w user = Some fp ->
  (0 < max fp -> max fp <= current fp + amount ->
   exists w' fp',
     addFate h user amount w = (Returned true, w')
     /\ getFatePoints w' user = Some fp'
     /\ In "full" (UIHandler.fateContainerClasses w' user fp')
     /\ ~ In "exhausted" (UIHandler.fateContainerClasses w' user fp'))
  /\ (current fp <= amount ->
      exists w' fp',
        removeFate h user amount w = (Returned true, w')
        /\ getFatePoints w' user = Some fp'
        /\ In "exhausted" (UIHandler.fateContainerClasses w' user fp')
        /\ ~ In "full" (UIHandler.fateContainerClasses w' user fp')).
Proof.
  intros Hgm Hacc Hfp. split.
  - intros Hpos Hreach.
    destruct (addFate_accepted h user amount fp w Hgm Hacc Hfp)
      as (w' & Hcall & Hv & _).
    rewrite Z.min_l in Hv by lia.
    exists w', (mkPoints (max fp) (max fp)). repeat apply conj; try done.
    + unfold UIHandler.fateContainerClasses. rewrite !in_app_iff. cbn.
      destruct (Z.eqb_spec (max fp) 0); [lia|]. rewrite Z.eqb_refl. cbn. auto.
    + unfold UIHandler.fateContainerClasses. rewrite !in_app_iff. cbn.
      destruct (Z.eqb_spec (max fp) 0); [lia|]. rewrite Z.eqb_refl.
      destruct (_ && _); cbn; intuition discriminate.
  - intros Hall.
    destruct (removeFate_accepted h user amount fp w Hgm Hacc Hfp)
      as (w' & Hcall & Hv & _).
    rewrite Z.max_l in Hv by lia.
    exists w', (mkPoints 0 (max fp)). repeat apply conj; try done.
    + unfold UIHandler.fateContainerClasses. rewrite !in_app_iff. cbn. auto.
    + unfold UIHandler.fateContainerClasses. rewrite !in_app_iff. cbn.
      destruct (_ && _); cbn; intuition discriminate.
Qed.

(** ** The further properties on the example sessions *)

Lemma canUseFate_authorisation_matrix_witness :
  isGM alice = false
  /\ (isGM (game_user aliceSession) = true
      \/ (allowPlayerUse (game_settings aliceSession) = true
          /\ user_id alice = user_id (game_user aliceSession))).
Proof.
  apply (canUseFate_authorisation_matrix aliceSession alice).
  reflexivity.
Defined.

Lemma badge_follows_the_fate_operation_witness :
  exists w' fp',
    addFate permissiveHost alice 2 gmSession = (Returned true, w')
    /\ getFatePoints w' alice = Some fp'
    /\ In "full" (UIHandler.fateContainerClasses w' alice fp')
    /\ ~ In "exhausted" (UIHandler.fateContainerClasses w' alice fp').
Proof.
  apply (proj1 (badge_follows_the_fate_operation
                  permissiveHost alice 2 (mkPoints 3 5) gmSession eq_refl
                  (fun _ _ => eq_refl) eq_refl)).
  - vm_compute. reflexivity.
  - vm_compute. discriminate.
Defined.

Lemma gm_fate_operations_need_a_character_with_fate_witness :
  addFate permissiveHost carol 1 gmSession
  = (Returned false, warned "NoCharacter" gmSession)
  /\ removeFate permissiveHost carol 1 gmSession
     = (Returned false, warned "NoCharacter" gmSession).
Proof.
  apply (gm_fate_operations_need_a_character_with_fate
           permissiveHost carol 1 gmSession eq_refl).
  reflexivity.
Defined.

Lemma fate_operation_all_or_nothing_witness :
  exists r v,
    getPlayerCharacter gmSession (Some alice) = Some r
    /\ game_actors fateAdded !! r = set_fate_value v <$> game_actors gmSession !! r
    /\ (forall i, i <> r -> game_actors fateAdded !! i = game_actors gmSession !! i)
    /\ length (game_actors fateAdded) = length (game_actors gmSession).
Proof.
  apply (fate_operation_all_or_nothing
           permissiveHost alice 4 gmSession fateAdded true).
  right. left. reflexivity.
Defined.

Lemma refused_write_reports_failure_witness :
  exists w',
    addRuin refusingHost 1 noOptions gmSession = (Returned false, w')
    /\ reportsFailure gmSession w'.
Proof.
  apply (proj1 (refused_write_reports_failure
                  refusingHost alice 1 noOptions gmSession)).
  - reflexivity.
  - intros v. reflexivity.
Defined.

Lemma refused_chat_message_fails_after_ruin_write_witness :
  exists w',
    addRuin chatRefusingHost 1 noOptions gmSession = (Returned false, w')
    /\ getRuinPoints w' = mkPoints (Z.min 5 (3 + 1)) 5
    /\ notifications w'
       = (notifications gmSession ++ [mkNotification "UpdateFailed" NError])%list
    /\ chatLog w' = chatLog gmSession.
Proof.
  apply (refused_chat_message_fails_after_ruin_write
           chatRefusingHost 1 noOptions gmSession).
  - reflexivity.
  - intros v. reflexivity.
  - intros m. reflexivity.
  - reflexivity.
Defined.

Lemma ruin_success_sends_the_chat_message_asked_for_witness :
  exists w',
    removeRuin permissiveHost 1 (mkOptions (Some false)) gmSession
    = (Returned true, w')
    /\ getRuinPoints w' = mkPoints (Z.max 0 (3 - 1)) 5
    /\ chatLog w' = (chatLog gmSession ++ [])%list
    /\ notifications w' = notifications gmSession.
Proof.
  apply (ruin_success_sends_the_chat_message_asked_for
           permissiveHost 1 (mkOptions (Some false)) gmSession).
  - reflexivity.
  - split; intros ?; reflexivity.
Defined.

Lemma successful_use_subtracts_exactly_witness :
  1 <= current (getRuinPoints gmSession)
  /\ getRuinPoints ruinUsed
     = mkPoints (current (getRuinPoints gmSession) - 1)
                (max (getRuinPoints gmSession)).
Proof.
  apply (proj1 (successful_use_subtracts_exactly
                  permissiveHost alice 1 noOptions gmSession ruinUsed)).
  reflexivity.
Defined.

Lemma useRuin_refuses_more_than_current_witness :
  useRuin permissiveHost 4 noOptions gmSession
  = (Returned false, warned "InsufficientRuin" gmSession).
Proof.
  apply (useRuin_refuses_more_than_current permissiveHost 4 noOptions gmSession).
  - reflexivity.
  - vm_compute; first [reflexivity | discriminate].
Defined.

Lemma remove_of_at_least_current_empties_witness :
  exists w',
    removeRuin permissiveHost 9 noOptions gmSession = (Returned true, w')
    /\ getRuinPoints w' = mkPoints 0 (max (getRuinPoints gmSession)).
Proof.
  apply (proj1 (remove_of_at_least_current_empties
                  permissiveHost alice 9 noOptions gmSession eq_refl)).
  - split; intros ?; reflexivity.
  - vm_compute; first [reflexivity | discriminate].
Defined.

Lemma ruin_add_and_remove_cancel_witness :
  exists w1 w2,
    addRuin permissiveHost 2 noOptions gmSession = (Returned true, w1)
    /\ removeRuin permissiveHost 2 noOptions w1 = (Returned true, w2)
    /\ getRuinPoints w2 = getRuinPoints gmSession.
Proof.
  apply (proj1 (ruin_add_and_remove_cancel
                  permissiveHost 2 noOptions noOptions gmSession eq_refl
                  (conj (fun _ => eq_refl) (fun _ => eq_refl)) ltac:(lia)
                  ltac:(vm_compute; discriminate))).
  - vm_compute; first [reflexivity | discriminate].
  - vm_compute; first [reflexivity | discriminate].
Defined.

Lemma fate_add_and_remove_cancel_witness :
  exists w1 w2,
    removeFate permissiveHost alice 2 gmSession = (Returned true, w1)
    /\ addFate permissiveHost alice 2 w1 = (Returned true, w2)
    /\ getFatePoints w2 alice = Some (mkPoints 3 5).
Proof.
  apply (proj2 (fate_add_and_remove_cancel
                  permissiveHost alice 2 (mkPoints 3 5) gmSession eq_refl
                  (fun _ _ => eq_refl) eq_refl ltac:(lia)
                  ltac:(vm_compute; discriminate))).
  - vm_compute; first [reflexivity | discriminate].
  - vm_compute; first [reflexivity | discriminate].
Defined.

Lemma player_spends_only_own_fate_witness :
  useFate permissiveHost bob 1 aliceSession
  = (Returned false, warned "CannotUseFate" aliceSession)
  /\ exists w',
       useFate permissiveHost alice 1 aliceSession = (Returned true, w')
       /\ getFatePoints w' alice = Some (mkPoints (3 - 1) 5).
Proof.
  split.
  - apply (proj1 (player_spends_only_own_fate
                    permissiveHost bob 1 aliceSession eq_refl)).
    vm_compute. discriminate.
  - apply (proj2 (player_spends_only_own_fate
                    permissiveHost alice 1 aliceSession eq_refl)
             eq_refl eq_refl (fun _ _ => eq_refl) (mkPoints 3 5)).
    + reflexivity.
    + vm_compute; first [reflexivity | discriminate].
Defined.

Lemma roster_and_manager_authorise_alike_witness :
  UIHandler._canInteractWithFate aliceSessionOff alice
  = _canUseFate aliceSessionOff alice.
Proof.
  apply (roster_and_manager_authorise_alike aliceSessionOff alice (mkPoints 3 5)).
  reflexivity.
Defined.

Lemma getPlayerCharacter_is_a_character_of_the_user_witness :
  exists u a,
    Some bob = Some u
    /\ isGM u = false
    /\ game_actors bobSession !! 1%nat = Some a
    /\ actor_type a = "character"
    /\ (assignedCharacter bobSession u 1 \/ ownsCharacterAt bobSession u 1).
Proof.
  apply (getPlayerCharacter_is_a_character_of_the_user bobSession (Some bob) 1).
  reflexivity.
Defined.

Lemma getPlayerCharacter_prefers_assignment_then_first_owned_witness :
  getPlayerCharacter aliceSession (Some alice) = Some 0%nat.
Proof.
  apply (proj1 (getPlayerCharacter_prefers_assignment_then_first_owned
                  aliceSession alice eq_refl)).
  split; [reflexivity|]. exists aldric. split; reflexivity.
Defined.

Lemma tracked_fate_change_is_announced_once_witness :
  exists w',
    actorUpdateInSession permissiveHost aldric (mkChanges (Some 2))
                         "u-alice" aliceSession
    = (Returned tt, w')
    /\ chatLog w'
       = [mkChat "impmal-shared-fate-message fate-message" "Chat.FateDecreased"
                 "Aldric" 1 (Some 3) 2 5]
    /\ renders w' = 1%nat
    /\ notifications w' = notifications aliceSession
    /\ sameState aliceSession w'.
Proof.
  apply (tracked_fate_change_is_announced_once permissiveHost aldric 2 aliceSession).
  - reflexivity.
  - vm_compute. discriminate.
  - reflexivity.
Defined.

Lemma untracked_update_leaves_no_trace_witness :
  actorUpdateInSession permissiveHost servitor (mkChanges (Some 0)) "u-gm" gmSession
  = (Returned tt, gmSession).
Proof.
  apply (untracked_update_leaves_no_trace
           permissiveHost servitor (mkChanges (Some 0)) "u-gm" gmSession).
  left. vm_compute. discriminate.
Defined.

Lemma fate_click_spends_one_or_nothing_witness :
  exists w',
    UIHandler._onFateClick permissiveHost true (mkMouseEvent true) alice
                           aliceSession
    = (Returned tt, w')
    /\ notifications w' = notifications aliceSession
    /\ game_settings w' = game_settings aliceSession
    /\ getFatePoints w' alice = Some (mkPoints (3 - 1) 5).
Proof.
  apply (fate_click_spends_one_or_nothing
           permissiveHost true (mkMouseEvent true) alice aliceSession).
  - reflexivity.
  - intros r v. reflexivity.
  - intros fp [= <-]. vm_compute. discriminate.
Defined.

Lemma ruin_click_in_gm_session_witness :
  exists w',
    UIHandler._onRuinClick permissiveHost true (mkMouseEvent false) gmSession
    = (Returned tt, w')
    /\ notifications w' = notifications gmSession
    /\ getRuinPoints w' = mkPoints (3 - 1) 5.
Proof.
  apply (ruin_click_in_gm_session permissiveHost true (mkMouseEvent false) gmSession).
  - reflexivity.
  - split; intros ?; reflexivity.
  - vm_compute. split; discriminate.
Defined.

Lemma player_session_clicks_reach_only_own_fate_witness :
  UIHandler._onRuinRightClick permissiveHost (mkMouseEvent true) aliceSession
  = (Returned tt, aliceSession)
  /\ UIHandler._onFateRightClick permissiveHost (mkMouseEvent true) bob aliceSession
     = (Returned tt, aliceSession).
Proof.
  pose proof (player_session_clicks_reach_only_own_fate
                permissiveHost true (mkMouseEvent true) bob aliceSession eq_refl)
    as (H1 & H2 & _).
  by split.
Defined.

